(** * The hourly server digest (scripts/digest.py)

    A shallow embedding of the digest script: the probes that shell out,
    the snapshot they are gathered into, the prompt rendered from it, the
    chunked Telegram delivery and the run controller with its two
    [try]/[except] blocks.

    Python [str] values are sequences of Unicode code points, so texts
    are lists of code points: [len] is [length] and a slice is
    [firstn]/[skipn].  Everything the script cannot decide by itself (the
    clock, the shell, the files, the two HTTP services) is an oracle that
    answers from the history of the run so far.

    What is taken for granted about the host: the clock answers, [print]
    goes through, and the summarizer, when it answers, answers with a
    text.  Everything else may fail in any way an [Exception] can tell:
    [subprocess.run] (the shell cannot be started, what the command
    printed does not decode as text), the append to the log file, the
    credentials file and the two HTTP services. *)

From Stdlib Require Import String Ascii DecimalString.
From Stdlib Require Import List NArith ZArith Bool Lia PeanoNat.
Import ListNotations.

Open Scope string_scope.
Open Scope list_scope.
Open Scope nat_scope.

(** ** Text *)

Definition char := N.
Definition str := list char.

(** Literals are written as UTF-8 byte strings and decoded to code
    points; [utf8] is that decoder. *)
Fixpoint utf8_cont (n : nat) (acc : N) (s : string) : N * string :=
  match n with
  | O => (acc, s)
  | S n' =>
      match s with
      | EmptyString => (acc, s)
      | String a s' => utf8_cont n' (acc * 64 + (N_of_ascii a) mod 64)%N s'
      end
  end.

Fixpoint utf8_fuel (fuel : nat) (s : string) : str :=
  match fuel with
  | O => []
  | S f =>
      match s with
      | EmptyString => []
      | String a s' =>
          let b := N_of_ascii a in
          let '(extra, lead) :=
            if (b <? 128)%N then (0%nat, b)
            else if (b <? 224)%N then (1%nat, (b mod 32)%N)
            else if (b <? 240)%N then (2%nat, (b mod 16)%N)
            else (3%nat, (b mod 8)%N) in
          let '(cp, rest) := utf8_cont extra lead s' in
          cp :: utf8_fuel f rest
      end
  end.

Definition utf8 (s : string) : str := utf8_fuel (String.length s) s.
Definition u : string -> str := utf8.

(** The characters a Rocq literal cannot hold directly. *)
Definition nl : str := [10%N].
Definition tab : str := [9%N].
Definition dq : str := [34%N].

Fixpoint str_eqb (a b : str) : bool :=
  match a, b with
  | [], [] => true
  | x :: a', y :: b' => N.eqb x y && str_eqb a' b'
  | _, _ => false
  end.

(** [str(n)] for a non-negative integer. *)
Definition str_of_nat (n : nat) : str :=
  utf8 (NilEmpty.string_of_uint (Nat.to_uint n)).

(** [str.isspace] on one code point, as CPython decides it. *)
Definition is_space (c : char) : bool :=
  ((9 <=? c) && (c <=? 13) || (28 <=? c) && (c <=? 32)
   || (c =? 133) || (c =? 160) || (c =? 5760)
   || (8192 <=? c) && (c <=? 8202)
   || (c =? 8232) || (c =? 8233) || (c =? 8239) || (c =? 8287)
   || (c =? 12288))%N.

Fixpoint lstrip (s : str) : str :=
  match s with
  | [] => []
  | c :: s' => if is_space c then lstrip s' else s
  end.

Definition rstrip (s : str) : str := rev (lstrip (rev s)).

(** [s.strip()] *)
Definition strip (s : str) : str := rstrip (lstrip s).

(** [sep.join(parts)] *)
Fixpoint join (sep : str) (parts : list str) : str :=
  match parts with
  | [] => []
  | [p] => p
  | p :: rest => p ++ sep ++ join sep rest
  end.

(** [a or b] on texts: the empty text is the only falsy one. *)
Definition py_or (a b : str) : str :=
  match a with
  | [] => b
  | _ :: _ => a
  end.

(** [text[i:j]] for [0 <= i <= j]; Python clamps both ends to the length,
    as [skipn] and [firstn] do. *)
Definition slice {A : Type} (text : list A) (i j : nat) : list A :=
  firstn (j - i) (skipn i text).

(** [range(start, stop, step)] for a positive step.  No more than [stop]
    values can be below [stop], which bounds the recursion. *)
Fixpoint range_from (fuel start stop step : nat) : list nat :=
  match fuel with
  | O => []
  | S f =>
      if start <? stop then start :: range_from f (start + step) stop step
      else []
  end.

Definition range (start stop step : nat) : list nat :=
  range_from stop start stop step.

(** The list comprehension of [tg]:
    [[text[i:i+4000] for i in range(0, len(text), 4000)]] *)
Definition chunks_by {A : Type} (n : nat) (text : list A) : list (list A) :=
  map (fun i => slice text i (i + n)) (range 0 (length text) n).

Definition chunk_size : nat := 4000.

Definition chunks (text : str) : list str := chunks_by chunk_size text.

(** [ceil(a / b)] on naturals. *)
Definition ceil_div (a b : nat) : nat := (a + (b - 1)) / b.

(** ** Values decoded from JSON *)

(** What [json.load] returns.  A float is kept only as whether it is
    zero, which is all the script ever asks of a value that is not a
    text (its truthiness). *)
#[warnings="-register-all"] Inductive json :=
| JNull
| JBool (b : bool)
| JNum (z : Z)
| JFloat (zero : bool)
| JStr (s : str)
| JArr (items : list json)
| JObj (members : list (str * json)).

(** Python truthiness, what [not x] and [if x] look at. *)
Definition truthy (v : json) : bool :=
  match v with
  | JNull => false
  | JBool b => b
  | JNum z => negb (Z.eqb z 0)
  | JFloat zero => negb zero
  | JStr s => match s with [] => false | _ => true end
  | JArr l => match l with [] => false | _ => true end
  | JObj m => match m with [] => false | _ => true end
  end.

Definition type_name (v : json) : str :=
  match v with
  | JNull => u "NoneType"
  | JBool _ => u "bool"
  | JNum _ => u "int"
  | JFloat _ => u "float"
  | JStr _ => u "str"
  | JArr _ => u "list"
  | JObj _ => u "dict"
  end.

Fixpoint assoc {V : Type} (k : str) (m : list (str * V)) : option V :=
  match m with
  | [] => None
  | (k', v) :: m' => if str_eqb k' k then Some v else assoc k m'
  end.

(** ** Exceptions *)

(** An [Exception] is kept as its message, [str(e)]; [SystemExit] is the
    one raised value that [except Exception] does not catch. *)
Inductive exn :=
| Exception (msg : str)
| SystemExit (code : Z).

Inductive result (A : Type) :=
| Ok (a : A)
| Raise (e : exn).
Arguments Ok {A} a.
Arguments Raise {A} e.

(** What a call to the outside comes back with: a value, or a failure
    that the caller sees as an [Exception] with that message (a missing
    file, a timeout, an HTTP error status, a reply that is not JSON). *)
Inductive reply (A : Type) :=
| Got (a : A)
| Failed (msg : str).
Arguments Got {A} a.
Arguments Failed {A} msg.

Definition result_of_reply {A : Type} (r : reply A) : result A :=
  match r with
  | Got a => Ok a
  | Failed msg => Raise (Exception msg)
  end.

(** ** The host and the history of a run *)

(** [subprocess.run(..., capture_output=True, text=True)] hands back a
    completed process whatever the exit status is: without [check=True] a
    failing command is a value, not an exception.  The call itself raises
    when the shell cannot be started ([OSError]) or when what the command
    printed does not decode as text ([UnicodeDecodeError]). *)
Record completed := {
  returncode : Z;
  stdout : str;
  stderr : str
}.

(** What the run did to the outside, in order, with what came back. *)
Inductive event :=
| EvClock (fmt value : str)
| EvPrint (line : str)
| EvAppend (path data : str) (r : reply unit)
| EvShell (cmd : str) (r : reply completed)
| EvLoad (path : str) (r : reply json)
| EvTelegram (url : str) (form : list (str * str)) (timeout : nat)
    (r : reply json)
| EvClaude (url : str) (headers : list (str * json)) (body : json)
    (timeout : nat) (r : reply str).

Definition trace := list event.

(** The outside world.  Each oracle sees the history so far, so the same
    command may answer differently the second time.
    - [utcnow t fmt] is [datetime.now(timezone.utc).strftime(fmt)];
    - [shell t cmd] is [subprocess.run(cmd, shell=True,
      capture_output=True, text=True)]: the completed [/bin/sh -c cmd],
      or the exception of the call;
    - [append_to t path data] is [open(path, "a")] and the [write] of
      [data]: done, or the [OSError] of one of the two;
    - [load_json t path] is [json.load(open(path))];
    - [post_form t url form] is the [urlopen] of a form-encoded POST
      followed by [json.load] of the reply;
    - [post_json t url headers body] is the [urlopen] of a JSON POST
      followed by [json.load(resp)["content"][0]["text"]];
    - [repr v] is [str(v)] of a decoded JSON value. *)
Record host := {
  environ : str -> option str;
  utcnow : trace -> str -> str;
  shell : trace -> str -> reply completed;
  append_to : trace -> str -> str -> reply unit;
  load_json : trace -> str -> reply json;
  post_form : trace -> str -> list (str * str) -> reply json;
  post_json : trace -> str -> list (str * json) -> json -> reply str;
  repr : json -> str
}.

(** ** Computations: a history threaded through, and exceptions *)

Definition M (A : Type) : Type := trace -> result A * trace.

Definition ret {A : Type} (a : A) : M A := fun t => (Ok a, t).

Definition raise {A : Type} (e : exn) : M A := fun t => (Raise e, t).

Definition bind {A B : Type} (m : M A) (f : A -> M B) : M B :=
  fun t =>
    match m t with
    | (Ok a, t') => f a t'
    | (Raise e, t') => (Raise e, t')
    end.

Notation "x <- m ;; k" := (bind m (fun x => k))
  (at level 61, m at next level, right associativity).
Notation "m ;; k" := (bind m (fun _ => k))
  (at level 61, right associativity).

(** [try: m  except Exception as e: handler(str(e))] *)
Definition try_except {A : Type} (m : M A) (handler : str -> M A) : M A :=
  fun t =>
    match m t with
    | (Ok a, t') => (Ok a, t')
    | (Raise (Exception msg), t') => handler msg t'
    | (Raise (SystemExit c), t') => (Raise (SystemExit c), t')
    end.

(** [for x in l: body(x)] *)
Fixpoint for_each {A : Type} (l : list A) (body : A -> M unit) : M unit :=
  match l with
  | [] => ret tt
  | x :: l' => body x ;; for_each l' body
  end.

Definition emit (e : event) : M unit := fun t => (Ok tt, t ++ [e]).

(** [sys.exit(code)] *)
Definition sys_exit {A : Type} (code : Z) : M A := raise (SystemExit code).

(** The status the process ends with: 0 when [main] returns, the code of
    a [SystemExit], 1 after an uncaught exception. *)
Definition exit_status (r : result unit) : Z :=
  match r with
  | Ok _ => 0
  | Raise (SystemExit c) => c
  | Raise (Exception _) => 1
  end.

(** [d.get(key, default)] on a decoded JSON value; only a dict has it. *)
Definition json_get (v : json) (key : str) (default : json) : M json :=
  match v with
  | JObj m =>
      ret (match assoc key m with Some x => x | None => default end)
  | _ =>
      raise (Exception (u "'" ++ type_name v
                          ++ u "' object has no attribute 'get'"))
  end.

(** ** The snapshot: a dict in insertion order *)

Definition dict := list (str * str).

(** [d[k] = v]: an existing key keeps its place, a new one goes last. *)
Fixpoint dict_set (k v : str) (d : dict) : dict :=
  match d with
  | [] => [(k, v)]
  | (k', v') :: d' =>
      if str_eqb k' k then (k, v) :: d' else (k', v') :: dict_set k v d'
  end.

Definition keys (d : dict) : list str := map fst d.

(** ** The script *)

Section Digest.

Variable h : host.

(** *** Config *)

(** [os.environ.get(name, "")] *)
Definition environ_get (name default : str) : str :=
  match environ h name with
  | Some v => v
  | None => default
  end.

Definition CLAUDE_CONFIG : str := u "/root/.claude.json".
Definition BOT_TOKEN : str := environ_get (u "ALERT_BOT_TOKEN") [].
Definition CHAT_ID : str := environ_get (u "ALERT_CHAT_ID") [].
Definition LOG_FILE : str := u "/root/.openclaw/logs/digest.log".
Definition MODEL : str := u "claude-sonnet-4-6".
Definition MAX_LOG_LINES : nat := 80.

(** *** The primitive effects *)

Definition strftime_utcnow (fmt : str) : M str :=
  fun t => let v := utcnow h t fmt in (Ok v, t ++ [EvClock fmt v]).

Definition print (line : str) : M unit := emit (EvPrint line).

(** [with open(path, "a") as f: f.write(data)] *)
Definition append_file (path data : str) : M unit :=
  fun t =>
    let r := append_to h t path data in
    (result_of_reply r, t ++ [EvAppend path data r]).

Definition subprocess_run (cmd : str) : M completed :=
  fun t =>
    let r := shell h t cmd in
    (result_of_reply r, t ++ [EvShell cmd r]).

Definition json_load_file (path : str) : M json :=
  fun t =>
    let r := load_json h t path in
    (result_of_reply r, t ++ [EvLoad path r]).

Definition telegram_urlopen (url : str) (form : list (str * str))
    (timeout : nat) : M json :=
  fun t =>
    let r := post_form h t url form in
    (result_of_reply r, t ++ [EvTelegram url form timeout r]).

Definition claude_urlopen (url : str) (headers : list (str * json))
    (body : json) (timeout : nat) : M str :=
  fun t =>
    let r := post_json h t url headers body in
    (result_of_reply r, t ++ [EvClaude url headers body timeout r]).

(** *** [log] *)

Definition log (msg : str) : M unit :=
  ts <- strftime_utcnow (u "%Y-%m-%dT%H:%M:%SZ") ;;
  let line := ts ++ u " " ++ msg in
  print line ;;
  append_file LOG_FILE (line ++ nl).

(** *** [run] *)

Definition run (cmd : str) : M str :=
  r <- subprocess_run cmd ;;
  ret (strip (stdout r ++ stderr r)).

(** *** [tg] *)

(** The form one chunk is posted with. *)
Definition tg_form (chunk : str) : list (str * str) :=
  [(u "chat_id", CHAT_ID); (u "text", chunk); (u "parse_mode", u "HTML")].

(** The body of the loop, for one chunk. *)
Definition tg_chunk (url chunk : str) : M unit :=
  let data := tg_form chunk in
  r <- telegram_urlopen url data 15 ;;
  ok <- json_get r (u "ok") JNull ;;
  if negb (truthy ok) then log (u "TG error: " ++ repr h r) else ret tt.

Definition tg_url : str :=
  u "https://api.telegram.org/bot" ++ BOT_TOKEN ++ u "/sendMessage".

Definition tg (text : str) : M unit :=
  let url := tg_url in
  for_each (chunks text) (tg_chunk url).

(** *** [call_claude] *)

(** The request of [call_claude]: its body, address and headers. *)
Definition claude_payload (prompt : str) : json :=
  JObj [(u "model", JStr MODEL);
        (u "max_tokens", JNum 1500);
        (u "messages",
         JArr [JObj [(u "role", JStr (u "user"));
                     (u "content", JStr prompt)]])].

Definition claude_url : str := u "https://api.anthropic.com/v1/messages".

Definition claude_headers (api_key : json) : list (str * json) :=
  [(u "x-api-key", api_key);
   (u "anthropic-version", JStr (u "2023-06-01"));
   (u "content-type", JStr (u "application/json"))].

Definition call_claude (api_key : json) (prompt : str) : M str :=
  let payload := claude_payload prompt in
  claude_urlopen claude_url (claude_headers api_key) payload 60.

(** *** [build_prompt] *)

Definition preamble (now : str) : list str :=
  [
    u "You are monitoring server 'openclaw-tg-bot' (OpenClaw AI agent + Telegram bot).";
    u "Report time: " ++ now ++ u " UTC";
    [];
    u "Write a terse server status report. Output plain Telegram HTML only.";
    u "Style: Teenage Engineering — minimal, technical, no fluff, no emoji, no box-drawing chars.";
    [];
    u "RULES:";
    u "- Section headers: <b>CAPS</b>";
    u "- Values: <code>value</code>";
    u "- Warnings/errors: <b>!!</b> prefix";
    u "- NO separator lines (no ─── or --- or ===)";
    u "- NO emoji at all";
    u "- Blank line between sections";
    u "- Lowercase labels, CAPS for status values: OK / WARN / CRIT";
    u "- Max 35 lines. Cut anything that is normal/expected.";
    u "- Language: Russian for descriptions, English for technical terms";
    [];
    u "EXACT FORMAT:";
    [];
    u "<b>OPENCLAW-TG-BOT</b>  {DD MON YYYY}  <code>{HH:MM} UTC</code>";
    [];
    u "<b>STATUS</b>  OK";
    [];
    u "<b>CONTAINERS</b>";
    u "openclaw-gateway  <code>up 22m</code>  cpu <code>0.07%</code>  ram <code>359mb</code>";
    [];
    u "<b>RESOURCES</b>";
    u "cpu <code>0.07%</code>  load <code>0.14 0.15 0.12</code>";
    u "mem <code>1.5/3.7G</code> <code>40%</code>  disk <code>13/38G</code> <code>35%</code>";
    u "uptime <code>3d 5h</code>";
    [];
    u "<b>NETWORK</b>";
    u "estab <code>5</code>  syn_recv <code>1</code>  time_wait <code>3</code>";
    u "ssh fails <code>201/h</code>";
    u "fail2ban <code>3</code> banned";
    u "active sessions: <code>79.152.30.156</code> ssh x2  <code>176.120.22.47</code> ssh x1";
    [];
    u "<b>EVENTS</b>";
    u "<code>16:09</code> openclaw-gateway restart (sigterm) — ok";
    [];
    u "<b>!! {конкретная проблема и что делать}</b>";
    [];
    u "OMIT any section where there is nothing notable.";
    u "OMIT the !! block entirely if STATUS is OK.";
    u "For NETWORK active sessions: identify type (ssh/api/etc) and group by IP.";
    u "For threats: exact numbers, no vague wording."
  ].

(** The three lines a section adds:
    [[f"=== {title} ===", content, ""]] *)
Definition section_lines (item : str * str) : list str :=
  [u "=== " ++ fst item ++ u " ==="; snd item; []].

(** [lines += ...] for every item, in the order [sections.items()] yields
    them. *)
Fixpoint add_sections (lines : list str) (items : dict) : list str :=
  match items with
  | [] => lines
  | item :: items' => add_sections (lines ++ section_lines item) items'
  end.

Definition build_prompt (sections : dict) (now : str) : str :=
  join nl (add_sections (preamble now) sections).

(** *** [collect] *)

(** The shell commands of [collect], each named after the key or the
    local variable its output goes to. *)
Definition cmd_docker_containers : str :=
  u "docker ps -a --format 'table {{.Names}}" ++ tab ++ u "{{.Status}}"
  ++ tab ++ u "{{.Image}}" ++ tab ++ u "{{.Ports}}'".
Definition cmd_docker_stats : str :=
  u "docker stats --no-stream --format '{{.Name}}: cpu={{.CPUPerc}} mem={{.MemUsage}} net={{.NetIO}} block={{.BlockIO}}'".
Definition cmd_openclaw_logs : str :=
  u "docker logs openclaw-gateway --since 1h 2>&1 | tail -n "
  ++ str_of_nat MAX_LOG_LINES.
Definition cmd_memory : str :=
  u "free -h | awk '/Mem:/{print $2" ++ dq ++ u " total, " ++ dq ++ u "$3"
  ++ dq ++ u " used, " ++ dq ++ u "$4" ++ dq ++ u " free" ++ dq ++ u "}'".
Definition cmd_swap : str :=
  u "free -h | awk '/Swap:/{print $2" ++ dq ++ u " total, " ++ dq ++ u "$3"
  ++ dq ++ u " used" ++ dq ++ u "}'".
Definition cmd_disk : str :=
  u "df -h / | awk 'NR==2{print $2" ++ dq ++ u " total, " ++ dq ++ u "$3"
  ++ dq ++ u " used, " ++ dq ++ u "$5" ++ dq ++ u " use%" ++ dq ++ u "}'".
Definition cmd_load : str :=
  u "uptime | awk -F'load average:' '{print $2}'".
Definition cmd_uptime : str := u "uptime -p".
Definition cmd_established_connections : str :=
  u "ss -tnp state established 2>/dev/null | awk 'NR>1{print $4, " ++ dq
  ++ u "→" ++ dq ++ u ", $5, $6}' | head -20".
Definition cmd_tcp_total : str := u "ss -s | awk '/TCP:/{print $0}'".
Definition cmd_tcp_estab : str :=
  u "ss -tn state established 2>/dev/null | wc -l".
Definition cmd_tcp_timewait : str :=
  u "ss -tn state time-wait 2>/dev/null | wc -l".
Definition cmd_tcp_synrecv : str :=
  u "ss -tn state syn-recv 2>/dev/null | wc -l".
Definition cmd_top_ips : str :=
  u "ss -tn state established 2>/dev/null | awk 'NR>1{print $5}' | cut -d: -f1 | sort | uniq -c | sort -rn | head -10".
Definition cmd_fail2ban : str :=
  u "fail2ban-client status 2>/dev/null | head -5".
Definition cmd_fail2ban_log : str :=
  u "journalctl -u fail2ban --since '1 hour ago' --no-pager -q 2>/dev/null | tail -10".
Definition cmd_ssh_fails : str :=
  u "journalctl _SYSTEMD_UNIT=ssh.service --since '1 hour ago' --no-pager -q 2>/dev/null | grep -i 'invalid\|failed\|error' | wc -l".
Definition cmd_system_errors : str :=
  u "journalctl -p err --since '1 hour ago' --no-pager -q 2>/dev/null | tail -20".
Definition cmd_monitor_log : str :=
  u "tail -n 15 /root/.openclaw/logs/monitor.log 2>/dev/null".
Definition cmd_backup_log : str :=
  u "tail -n 5 /root/.openclaw/logs/backup.log 2>/dev/null".

(** The two composed sections. *)
Definition system_resources_text (memory swap disk load uptime : str) : str :=
  join nl [u "Memory: " ++ memory;
           u "Swap:   " ++ swap;
           u "Disk:   " ++ disk;
           u "Load:   " ++ load;
           u "Uptime: " ++ uptime].

Definition network_security_text (tcp_total tcp_estab tcp_timewait
    tcp_synrecv top_ips ssh_fails fail2ban fail2ban_log : str) : str :=
  join nl [u "TCP stats:      " ++ tcp_total;
           u "Established:    " ++ tcp_estab ++ u " connections";
           u "TIME_WAIT:      " ++ tcp_timewait;
           u "SYN_RECV:       " ++ tcp_synrecv
             ++ u "  ← >50 может быть SYN flood";
           u "Top source IPs: " ++ nl ++ top_ips;
           u "SSH failed auth (1h): " ++ ssh_fails;
           u "fail2ban status:" ++ nl ++ fail2ban;
           u "fail2ban events (1h):" ++ nl ++ fail2ban_log].

Definition collect : M dict :=
  let s : dict := [] in
  (* All Docker containers (not just openclaw) *)
  v <- run cmd_docker_containers ;;
  let s := dict_set (u "docker_containers") v s in
  (* Per-container resource usage *)
  v <- run cmd_docker_stats ;;
  let s := dict_set (u "docker_stats")
             (py_or v (u "(no containers running)")) s in
  (* OpenClaw logs *)
  v <- run cmd_openclaw_logs ;;
  let s := dict_set (u "openclaw_logs") (py_or v (u "(no logs)")) s in
  (* System resources *)
  memory <- run cmd_memory ;;
  swap <- run cmd_swap ;;
  disk <- run cmd_disk ;;
  load <- run cmd_load ;;
  uptime <- run cmd_uptime ;;
  let s := dict_set (u "system_resources")
             (system_resources_text memory swap disk load uptime) s in
  (* Network: established connections detail *)
  v <- run cmd_established_connections ;;
  let s := dict_set (u "established_connections") (py_or v (u "(none)")) s in
  (* Network: DDoS / connection flood detection *)
  tcp_total <- run cmd_tcp_total ;;
  tcp_estab <- run cmd_tcp_estab ;;
  tcp_timewait <- run cmd_tcp_timewait ;;
  tcp_synrecv <- run cmd_tcp_synrecv ;;
  (* Top 10 source IPs by connection count *)
  v <- run cmd_top_ips ;;
  let top_ips := py_or v (u "(none)") in
  (* fail2ban recent bans *)
  v <- run cmd_fail2ban ;;
  let fail2ban := py_or v (u "(fail2ban not available)") in
  v <- run cmd_fail2ban_log ;;
  let fail2ban_log := py_or v (u "(no events)") in
  (* SSH brute-force attempts *)
  ssh_fails <- run cmd_ssh_fails ;;
  let s := dict_set (u "network_security")
             (network_security_text tcp_total tcp_estab tcp_timewait
                tcp_synrecv top_ips ssh_fails fail2ban fail2ban_log) s in
  (* System errors *)
  v <- run cmd_system_errors ;;
  let s := dict_set (u "system_errors") (py_or v (u "(none)")) s in
  (* Monitor & backup events *)
  v <- run cmd_monitor_log ;;
  let s := dict_set (u "monitor_log") (py_or v (u "(empty)")) s in
  v <- run cmd_backup_log ;;
  let s := dict_set (u "backup_log") (py_or v (u "(empty)")) s in
  ret s.

(** *** [main] *)

(** The body of the first [try]: the value bound to [api_key]. *)
Definition load_api_key : M json :=
  config <- json_load_file CLAUDE_CONFIG ;;
  api_key <- json_get config (u "primaryApiKey") (JStr []) ;;
  if negb (truthy api_key)
  then raise (Exception (u "primaryApiKey not found in ~/.claude.json"))
  else ret api_key.

(** The text of a delivered digest:
    [f"📊 <b>Hourly digest</b> — {now} UTC\n\n{report}"] *)
Definition digest_text (now report : str) : str :=
  u "📊 <b>Hourly digest</b> — " ++ now ++ u " UTC" ++ nl ++ nl ++ report.

(** The body of the second [try]. *)
Definition deliver_digest (api_key : json) (now : str) : M unit :=
  sections <- collect ;;
  let prompt := build_prompt sections now in
  log (u "data collected, calling " ++ MODEL) ;;
  report <- call_claude api_key prompt ;;
  log (u "response received, sending to Telegram") ;;
  tg (digest_text now report) ;;
  log (u "digest sent OK").

(** The two error notices:
    [f"🔴 <b>digest error</b>: {e}"] and
    [f"🔴 <b>digest script error</b>: <code>{e}</code>"] *)
Definition key_error_notice (e : str) : str :=
  u "🔴 <b>digest error</b>: " ++ e.

Definition script_error_notice (e : str) : str :=
  u "🔴 <b>digest script error</b>: <code>" ++ e ++ u "</code>".

Definition main : M unit :=
  log (u "digest started") ;;
  api_key <- try_except load_api_key (fun e =>
               log (u "ERROR loading API key: " ++ e) ;;
               tg (key_error_notice e) ;;
               sys_exit 1) ;;
  now <- strftime_utcnow (u "%Y-%m-%d %H:%M") ;;
  try_except (deliver_digest api_key now) (fun e =>
    log (u "ERROR: " ++ e) ;;
    tg (script_error_notice e) ;;
    sys_exit 1).

End Digest.

(** * What a history shows *)

Definition shell_of (e : event) : list str :=
  match e with
  | EvShell cmd _ => [cmd]
  | _ => []
  end.

(** The commands that were run, in order, whether or not they could
    complete. *)
Definition shells (t : trace) : list str := flat_map shell_of t.

Definition shell_failure_of (e : event) : list str :=
  match e with
  | EvShell _ (Failed msg) => [msg]
  | _ => []
  end.

(** The messages of the commands that could not complete. *)
Definition shell_failures (t : trace) : list str :=
  flat_map shell_failure_of t.

Definition is_shell (e : event) : bool :=
  match e with
  | EvShell _ _ => true
  | _ => false
  end.

Definition post_of (e : event) : list str :=
  match e with
  | EvTelegram _ form _ _ =>
      match assoc (u "text") form with
      | Some text => [text]
      | None => []
      end
  | _ => []
  end.

(** The texts posted to the delivery channel, in order, whether or not
    the request went through. *)
Definition posts (t : trace) : list str := flat_map post_of t.

Definition claude_call_of (e : event) : list (json * reply str) :=
  match e with
  | EvClaude _ _ body _ r => [(body, r)]
  | _ => []
  end.

(** The request bodies sent to the summarizer, with what came back. *)
Definition claude_calls (t : trace) : list (json * reply str) :=
  flat_map claude_call_of t.

Definition load_of (e : event) : list (reply json) :=
  match e with
  | EvLoad _ r => [r]
  | _ => []
  end.

(** What reading the credentials file gave. *)
Definition loads (t : trace) : list (reply json) := flat_map load_of t.

Definition now_of (e : event) : list str :=
  match e with
  | EvClock fmt value =>
      if str_eqb fmt (u "%Y-%m-%d %H:%M") then [value] else []
  | _ => []
  end.

(** The run timestamps taken (the clock read with the format of [main],
    not the one of [log]). *)
Definition nows (t : trace) : list str := flat_map now_of t.

Definition tried_of (e : event) : list str :=
  match e with
  | EvAppend _ data _ => [data]
  | _ => []
  end.

(** What the run set out to append to files, in order, whether or not
    the write went through. *)
Definition tried (t : trace) : list str := flat_map tried_of t.

Definition appended_of (e : event) : list str :=
  match e with
  | EvAppend _ data (Got _) => [data]
  | _ => []
  end.

(** What was appended to files, in order. *)
Definition appended (t : trace) : list str := flat_map appended_of t.

(** The write of a log line did not fail. *)
Definition append_ok (e : event) : bool :=
  match e with
  | EvAppend _ _ (Failed _) => false
  | _ => true
  end.

(** A decoded reply that [tg] reports: a dict whose ["ok"] is falsy. *)
Definition reply_rejected (r : json) : bool :=
  match r with
  | JObj m =>
      negb (truthy (match assoc (u "ok") m with Some x => x | None => JNull end))
  | _ => false
  end.

Definition rejection_of (e : event) : list json :=
  match e with
  | EvTelegram _ _ _ (Got r) => if reply_rejected r then [r] else []
  | _ => []
  end.

(** The rejected replies of the delivery channel, in order. *)
Definition rejections (t : trace) : list json := flat_map rejection_of t.

(** What the append of one [log(msg)] issued after history [t] comes
    back with: the line has been printed by then. *)
Definition log_reply (h : host) (t : trace) (msg : str) : reply unit :=
  let ts := utcnow h t (u "%Y-%m-%dT%H:%M:%SZ") in
  let line := ts ++ u " " ++ msg in
  append_to h ((t ++ [EvClock (u "%Y-%m-%dT%H:%M:%SZ") ts]) ++ [EvPrint line])
    LOG_FILE (line ++ nl).

(** The events of one [log(msg)] issued after history [t]. *)
Definition log_events (h : host) (t : trace) (msg : str) : list event :=
  let ts := utcnow h t (u "%Y-%m-%dT%H:%M:%SZ") in
  let line := ts ++ u " " ++ msg in
  [EvClock (u "%Y-%m-%dT%H:%M:%SZ") ts;
   EvPrint line;
   EvAppend (LOG_FILE) (line ++ nl) (log_reply h t msg)].

(** [msg] went to the audit log, under some timestamp: the line was
    written. *)
Definition Logged (t : trace) (msg : str) : Prop :=
  exists ts, In (EvAppend LOG_FILE ((ts ++ u " " ++ msg) ++ nl) (Got tt)) t.

(** The trimmed combined output of a completed command, what [run]
    returns for it. *)
Definition output (r : completed) : str := strip (stdout r ++ stderr r).

(** Python's [len], an integer. *)
Definition len (s : str) : Z := Z.of_nat (length s).

(** The section keys in the order [collect] assigns them. *)
Definition section_keys : list str :=
  [u "docker_containers"; u "docker_stats"; u "openclaw_logs";
   u "system_resources"; u "established_connections"; u "network_security";
   u "system_errors"; u "monitor_log"; u "backup_log"].

(** The fallback texts [collect] writes after [or]. *)
Definition fallbacks : list str :=
  [u "(no containers running)"; u "(no logs)"; u "(none)";
   u "(fail2ban not available)"; u "(no events)"; u "(empty)"].

(** The text one section contributes to the prompt. *)
Definition section_block (item : str * str) : str :=
  nl ++ u "=== " ++ fst item ++ u " ===" ++ nl ++ snd item ++ nl.

(** The completed commands of one [collect], one field per [run] call in
    the order of the calls. *)
Record probes := {
  p_docker_containers : completed;
  p_docker_stats : completed;
  p_openclaw_logs : completed;
  p_memory : completed;
  p_swap : completed;
  p_disk : completed;
  p_load : completed;
  p_uptime : completed;
  p_established_connections : completed;
  p_tcp_total : completed;
  p_tcp_estab : completed;
  p_tcp_timewait : completed;
  p_tcp_synrecv : completed;
  p_top_ips : completed;
  p_fail2ban : completed;
  p_fail2ban_log : completed;
  p_ssh_fails : completed;
  p_system_errors : completed;
  p_monitor_log : completed;
  p_backup_log : completed
}.

(** The history [collect] adds when its commands complete as [p]. *)
Definition probe_events (p : probes) : trace :=
  [
   EvShell cmd_docker_containers (Got (p_docker_containers p));
   EvShell cmd_docker_stats (Got (p_docker_stats p));
   EvShell cmd_openclaw_logs (Got (p_openclaw_logs p));
   EvShell cmd_memory (Got (p_memory p));
   EvShell cmd_swap (Got (p_swap p));
   EvShell cmd_disk (Got (p_disk p));
   EvShell cmd_load (Got (p_load p));
   EvShell cmd_uptime (Got (p_uptime p));
   EvShell cmd_established_connections (Got (p_established_connections p));
   EvShell cmd_tcp_total (Got (p_tcp_total p));
   EvShell cmd_tcp_estab (Got (p_tcp_estab p));
   EvShell cmd_tcp_timewait (Got (p_tcp_timewait p));
   EvShell cmd_tcp_synrecv (Got (p_tcp_synrecv p));
   EvShell cmd_top_ips (Got (p_top_ips p));
   EvShell cmd_fail2ban (Got (p_fail2ban p));
   EvShell cmd_fail2ban_log (Got (p_fail2ban_log p));
   EvShell cmd_ssh_fails (Got (p_ssh_fails p));
   EvShell cmd_system_errors (Got (p_system_errors p));
   EvShell cmd_monitor_log (Got (p_monitor_log p));
   EvShell cmd_backup_log (Got (p_backup_log p))
  ].

(** The dict [collect] returns when its commands complete as [p]
    (lemma [collect_run]). *)
Definition snapshot (p : probes) : dict :=
  [(u "docker_containers", output (p_docker_containers p));
   (u "docker_stats",
    py_or (output (p_docker_stats p)) (u "(no containers running)"));
   (u "openclaw_logs", py_or (output (p_openclaw_logs p)) (u "(no logs)"));
   (u "system_resources",
    system_resources_text (output (p_memory p)) (output (p_swap p))
      (output (p_disk p)) (output (p_load p)) (output (p_uptime p)));
   (u "established_connections",
    py_or (output (p_established_connections p)) (u "(none)"));
   (u "network_security",
    network_security_text (output (p_tcp_total p)) (output (p_tcp_estab p))
      (output (p_tcp_timewait p)) (output (p_tcp_synrecv p))
      (py_or (output (p_top_ips p)) (u "(none)"))
      (output (p_ssh_fails p))
      (py_or (output (p_fail2ban p)) (u "(fail2ban not available)"))
      (py_or (output (p_fail2ban_log p)) (u "(no events)")));
   (u "system_errors", py_or (output (p_system_errors p)) (u "(none)"));
   (u "monitor_log", py_or (output (p_monitor_log p)) (u "(empty)"));
   (u "backup_log", py_or (output (p_backup_log p)) (u "(empty)"))].

(** The commands of [collect], in the order it runs them. *)
Definition commands : list str :=
  [cmd_docker_containers;
   cmd_docker_stats;
   cmd_openclaw_logs;
   cmd_memory;
   cmd_swap;
   cmd_disk;
   cmd_load;
   cmd_uptime;
   cmd_established_connections;
   cmd_tcp_total;
   cmd_tcp_estab;
   cmd_tcp_timewait;
   cmd_tcp_synrecv;
   cmd_top_ips;
   cmd_fail2ban;
   cmd_fail2ban_log;
   cmd_ssh_fails;
   cmd_system_errors;
   cmd_monitor_log;
   cmd_backup_log].

(** The audit line of a rejected reply [r]. *)
Definition tg_error_line (h : host) (r : json) (data : str) : Prop :=
  exists ts, data = (ts ++ u " " ++ (u "TG error: " ++ repr h r)) ++ nl.

(** The credentials file gave a dict with a truthy ["primaryApiKey"]. *)
Definition key_ok (r : reply json) : bool :=
  match r with
  | Got (JObj m) =>
      truthy (match assoc (u "primaryApiKey") m with
              | Some v => v
              | None => JStr []
              end)
  | _ => false
  end.

(** A call to the outside after which the script goes on: the command
    completed (whatever its exit status), the log line was written, the
    key was there, the summarizer answered, the delivery channel replied
    with a dict (whatever its ["ok"]).  Clock reads and prints always
    are. *)
Definition event_ok (e : event) : bool :=
  match e with
  | EvShell _ (Got _) => true
  | EvShell _ (Failed _) => false
  | EvAppend _ _ (Got _) => true
  | EvAppend _ _ (Failed _) => false
  | EvLoad _ r => key_ok r
  | EvClaude _ _ _ _ (Got _) => true
  | EvClaude _ _ _ _ (Failed _) => false
  | EvTelegram _ _ _ (Got (JObj _)) => true
  | EvTelegram _ _ _ _ => false
  | _ => true
  end.

(** What [collect] adds when one of its commands cannot complete and
    raises with message [msg]: the commands before it in the order of
    the source, each completed, then the one that failed, and nothing
    else. *)
Definition collect_failed (msg : str) (d : trace) : Prop :=
  exists pre cmd n,
    d = pre ++ [EvShell cmd (Failed msg)]
    /\ forallb event_ok pre = true
    /\ forallb is_shell d = true
    /\ n < 20
    /\ shells d = firstn (S n) commands.

(** Events among which no command was run, no summary asked, no
    credentials read and no run timestamp taken. *)
Definition quiet (d : trace) : Prop :=
  shells d = [] /\ claude_calls d = [] /\ loads d = [] /\ nows d = [].

(** What one call of [tg] on the chunk list [cs] leaves behind when it
    ends with [r] and added the events [d]: the chunks posted are the
    first [k] of [cs], all of them when [tg] returned and at least one
    when there is any; nothing else was asked of the outside but the
    clock and the log file of [log]; a raised value is an [Exception];
    [tg] returns exactly when every request was answered with a dict and
    every log line was written; the run set out to log one line for each
    rejected reply; and when [tg] raises, what made it raise lies with
    the last request: all went well before it. *)
Definition tg_outcome (h : host) (cs : list str) (r : result unit)
    (d : trace) : Prop :=
  (exists k, k <= length cs /\ posts d = firstn k cs
             /\ (r = Ok tt -> k = length cs) /\ (cs <> [] -> 1 <= k))
  /\ quiet d
  /\ (r = Ok tt \/ exists msg, r = Raise (Exception msg))
  /\ (forallb event_ok d = true -> r = Ok tt)
  /\ Forall2 (tg_error_line h) (rejections d) (tried d)
  /\ (r = Ok tt -> forallb event_ok d = true)
  /\ (r <> Ok tt ->
      exists d1 d2,
        d = d1 ++ d2 /\ forallb event_ok d1 = true
        /\ length (posts d2) = 1 /\ forallb event_ok d2 = false)
  /\ shell_failures d = [].

(** When the first [try] of [main] ends well: the file decodes to a dict
    whose ["primaryApiKey"] is truthy. *)
Definition key_loads (rl : reply json) (api_key : json) : Prop :=
  exists m, rl = Got (JObj m)
            /\ assoc (u "primaryApiKey") m = Some api_key
            /\ truthy api_key = true.

(** When it ends in its [except], and with which message: the file
    cannot be read or decoded, what it holds is not a dict, or the key is
    missing or falsy. *)
Inductive key_load_fails : reply json -> str -> Prop :=
| Unreadable (msg : str) : key_load_fails (Failed msg) msg
| NotADict (v : json) :
    (forall m, v <> JObj m) ->
    key_load_fails (Got v)
      (u "'" ++ type_name v ++ u "' object has no attribute 'get'")
| KeyMissing (m : list (str * json)) :
    assoc (u "primaryApiKey") m = None ->
    key_load_fails (Got (JObj m)) (u "primaryApiKey not found in ~/.claude.json")
| KeyFalsy (m : list (str * json)) (v : json) :
    assoc (u "primaryApiKey") m = Some v -> truthy v = false ->
    key_load_fails (Got (JObj m)) (u "primaryApiKey not found in ~/.claude.json").

(** How an [except] block of [main] ends: with [SystemExit(1)] when its
    notice went out, with the exception of [tg] otherwise. *)
Definition after_notice (rt : result unit) : result unit :=
  match rt with
  | Ok _ => Raise (SystemExit 1)
  | Raise e => Raise e
  end.

(** An [except] block of [main] entered after history [t]: it logs
    [logmsg], hands [notice] to [tg] and exits; when the log line cannot
    be written, the exception of the write is all there is. *)
Definition handled (h : host) (logmsg notice : str) (t : trace)
    (out : result unit * trace) : Prop :=
  match log_reply h t logmsg with
  | Got _ =>
      exists rt d,
        tg_outcome h (chunks notice) rt d
        /\ out = (after_notice rt, (t ++ log_events h t logmsg) ++ d)
  | Failed msg =>
      out = (Raise (Exception msg), t ++ log_events h t logmsg)
  end.

(** The history up to the summarizer call, when the key loaded as the
    reply [rl], the clock read [now], the commands completed as [p] and
    the summarizer answered [rc]. *)
Definition started (h : host) : trace := log_events h [] (u "digest started").

Definition keyed (h : host) (rl : reply json) (now : str) : trace :=
  (started h ++ [EvLoad CLAUDE_CONFIG rl])
  ++ [EvClock (u "%Y-%m-%d %H:%M") now].

Definition collected (h : host) (rl : reply json) (now : str) (p : probes)
    : trace :=
  let t := keyed h rl now ++ probe_events p in
  t ++ log_events h t (u "data collected, calling " ++ MODEL).

Definition asked (h : host) (rl : reply json) (api_key : json) (now : str)
    (p : probes) (rc : reply str) : trace :=
  collected h rl now p
  ++ [EvClaude claude_url (claude_headers api_key)
        (claude_payload (build_prompt (snapshot p) now)) 60 rc].

(** The ways a run of [main] from an empty history can go: the first
    log line cannot be written; the key does not load; a command of
    [collect] cannot complete; one of the log lines of the second [try]
    cannot be written; the summarizer call raises; the delivery raises;
    the digest goes out. *)
Inductive main_outcome (h : host) : result unit * trace -> Prop :=
| StartError (msg : str) :
    log_reply h [] (u "digest started") = Failed msg ->
    main_outcome h (Raise (Exception msg), started h)
| CollectError (rl : reply json) (api_key : json) (now msg : str)
    (d : trace) (out : result unit * trace) :
    key_loads rl api_key ->
    collect_failed msg d ->
    handled h (u "ERROR: " ++ msg) (script_error_notice msg)
      (keyed h rl now ++ d) out ->
    main_outcome h out
| LogError (rl : reply json) (api_key : json) (now msg : str)
    (d : trace) (out : result unit * trace) :
    key_loads rl api_key ->
    forallb append_ok d = false ->
    handled h (u "ERROR: " ++ msg) (script_error_notice msg)
      (keyed h rl now ++ d) out ->
    main_outcome h out
| KeyError (rl : reply json) (msg : str) (out : result unit * trace) :
    rl = load_json h (started h) CLAUDE_CONFIG ->
    key_load_fails rl msg ->
    handled h (u "ERROR loading API key: " ++ msg) (key_error_notice msg)
      (started h ++ [EvLoad CLAUDE_CONFIG rl]) out ->
    main_outcome h out
| SummaryError (rl : reply json) (api_key : json) (now : str) (p : probes)
    (msg : str) (out : result unit * trace) :
    key_loads rl api_key ->
    handled h (u "ERROR: " ++ msg) (script_error_notice msg)
      (asked h rl api_key now p (Failed msg)) out ->
    main_outcome h out
| DeliveryError (rl : reply json) (api_key : json) (now : str) (p : probes)
    (report msg : str) (d : trace) (out : result unit * trace) :
    key_loads rl api_key ->
    let t := asked h rl api_key now p (Got report) in
    let t' := t ++ log_events h t (u "response received, sending to Telegram") in
    tg_outcome h (chunks (digest_text now report)) (Raise (Exception msg)) d ->
    handled h (u "ERROR: " ++ msg) (script_error_notice msg) (t' ++ d) out ->
    main_outcome h out
| Delivered (rl : reply json) (api_key : json) (now : str) (p : probes)
    (report : str) (d : trace) :
    key_loads rl api_key ->
    let t := asked h rl api_key now p (Got report) in
    let t' := t ++ log_events h t (u "response received, sending to Telegram") in
    tg_outcome h (chunks (digest_text now report)) (Ok tt) d ->
    log_reply h (t' ++ d) (u "digest sent OK") = Got tt ->
    main_outcome h
      (Ok tt, (t' ++ d) ++ log_events h (t' ++ d) (u "digest sent OK")).

(** * Scripted hosts *)

Module Fixture.

Definition stamp (fmt : str) : str :=
  if str_eqb fmt (u "%Y-%m-%d %H:%M") then u "2026-11-03 15:00"
  else u "2026-11-03T15:00:05Z".

Definition silent : completed :=
  {| returncode := 1; stdout := []; stderr := [] |}.

Definition blank : completed :=
  {| returncode := 0; stdout := u "  " ++ nl; stderr := nl |}.

Definition says (text : str) : completed :=
  {| returncode := 0; stdout := text ++ nl; stderr := [] |}.

Definition accepted : json := JObj [(u "ok", JBool true)].

Definition rejected : json :=
  JObj [(u "ok", JBool false); (u "description", JStr (u "Bad Request"))].

Definition good_config : reply json :=
  Got (JObj [(u "primaryApiKey", JStr (u "sk-test"))]).

(** Every command prints only blanks. *)
Definition whitespace_only : host :=
  {| environ := fun _ => None;
     utcnow := fun _ fmt => stamp fmt;
     shell := fun _ _ => Got blank;
     append_to := fun _ _ _ => Got tt;
     load_json := fun _ _ => good_config;
     post_form := fun _ _ _ => Got accepted;
     post_json := fun _ _ _ _ => Got (u "<b>STATUS</b>  OK");
     repr := fun _ => u "{...}" |}.

(** A host that answers by script: [sh] for the shell, [writes k] for
    the k-th append (from 0) to the log file, [config] for the
    credentials file, [report] for the summarizer and [answers k] for
    the k-th request (from 0) to the delivery channel. *)
Definition staged (sh : str -> reply completed) (writes : nat -> reply unit)
    (config : reply json) (report : reply str) (answers : nat -> reply json)
    : host :=
  {| environ := fun _ => None;
     utcnow := fun _ fmt => stamp fmt;
     shell := fun _ cmd => sh cmd;
     append_to := fun t _ _ => writes (length (tried t));
     load_json := fun _ _ => config;
     post_form := fun t _ _ => answers (length (posts t));
     post_json := fun _ _ _ _ => report;
     repr := fun _ => u "{...}" |}.

(** The same with every command completing and every write going
    through. *)
Definition scripted (sh : str -> completed) (config : reply json)
    (report : reply str) (answers : nat -> reply json) : host :=
  staged (fun cmd => Got (sh cmd)) (fun _ => Got tt) config report answers.


(** The file is there but holds an empty key. *)
Definition empty_key : host :=
  scripted (fun _ => says (u "ok"))
    (Got (JObj [(u "primaryApiKey", JStr [])]))
    (Got (u "<b>STATUS</b>  OK")) (fun _ => Got accepted).


(** A report of 5000 characters; the first request to the delivery
    channel is accepted, the second times out. *)
Definition long_report : str := repeat 97%N 4000 ++ repeat 97%N 1000.

Definition second_post_fails : host :=
  scripted (fun _ => says (u "ok")) good_config (Got long_report)
    (fun k => match k with
              | 1 => Failed (u "The read operation timed out")
              | _ => Got accepted
              end).

(** Everything answers; the report is the one given. *)
Definition all_well (report : str) : host :=
  scripted (fun _ => says (u "ok")) good_config (Got report)
    (fun _ => Got accepted).

(** A report of exactly 9000 characters. *)
Definition report_9000 : str :=
  repeat 97%N 4000 ++ repeat 97%N 4000 ++ repeat 97%N 1000.

(** The delivery channel rejects every request. *)
Definition all_rejected : host :=
  scripted (fun _ => says (u "ok")) good_config
    (Got (u "<b>STATUS</b>  OK")) (fun _ => Got rejected).

(** A text of 8500 characters. *)
Definition text_8500 : str :=
  repeat 98%N 4000 ++ repeat 98%N 4000 ++ repeat 98%N 500.

(** The delivery channel cannot be reached. *)
Definition channel_down : host :=
  scripted (fun _ => says (u "ok")) good_config
    (Got (u "<b>STATUS</b>  OK"))
    (fun _ => Failed (u "HTTP Error 404: Not Found")).

(** The delivery channel answers with JSON that is not a dict. *)
Definition channel_garbled : host :=
  scripted (fun _ => says (u "ok")) good_config
    (Got (u "<b>STATUS</b>  OK")) (fun _ => Got (JArr [])).

(** The delivery channel answers the second request with JSON that is
    not a dict. *)
Definition second_reply_garbled : host :=
  scripted (fun _ => says (u "ok")) good_config
    (Got (u "<b>STATUS</b>  OK"))
    (fun k => match k with
              | 1 => Got (JArr [])
              | _ => Got accepted
              end).

(** The gateway has logged bytes that are not UTF-8: the third command
    of [collect] cannot be decoded. *)
Definition undecodable : str :=
  u "'utf-8' codec can't decode byte 0xff in position 17: invalid start byte".

Definition garbled_logs : host :=
  staged (fun cmd => if str_eqb cmd cmd_openclaw_logs
                     then Failed undecodable
                     else Got (says (u "ok")))
    (fun _ => Got tt) good_config (Got (u "<b>STATUS</b>  OK"))
    (fun _ => Got accepted).



(** The log file cannot be written at all. *)
Definition log_unwritable : host :=
  staged (fun _ => Got (says (u "ok")))
    (fun _ => Failed (u "[Errno 13] Permission denied: '/root/.openclaw/logs/digest.log'"))
    good_config (Got (u "<b>STATUS</b>  OK")) (fun _ => Got accepted).

End Fixture.

(** * Invariants of a history *)

Definition print_of (e : event) : list str :=
  match e with
  | EvPrint line => [line]
  | _ => []
  end.

(** What went to standard output, in order. *)
Definition printed (t : trace) : list str := flat_map print_of t.

(** A computation only adds to the history, and what it adds satisfies
    [Q], whether it returns or raises. *)
Definition adds (Q : trace -> Prop) {A : Type} (m : M A) : Prop :=
  forall t, exists d, snd (m t) = t ++ d /\ Q d.

(** When the computation returns, every call to the outside it made went
    well. *)
Definition clean {A : Type} (m : M A) : Prop :=
  forall t a t',
    m t = (Ok a, t') -> exists d, t' = t ++ d /\ forallb event_ok d = true.

(** The computation always ends by raising. *)
Definition never_returns {A : Type} (m : M A) : Prop :=
  forall t a, fst (m t) <> Ok a.

(** The only things the script asks of the outside: the clock in its two
    formats; whole lines appended to its log file; the commands of
    [collect]; the credentials file; a form with one chunk of 1 to 4000
    characters posted to the bot address within 15 seconds; the request
    of [call_claude] posted to the summarizer within 60 seconds. *)
Definition expected_event (h : host) (e : event) : Prop :=
  match e with
  | EvClock fmt _ => fmt = u "%Y-%m-%dT%H:%M:%SZ" \/ fmt = u "%Y-%m-%d %H:%M"
  | EvPrint _ => True
  | EvAppend path data _ =>
      path = LOG_FILE /\ exists line, data = line ++ nl
  | EvShell cmd _ => In cmd commands
  | EvLoad path _ => path = CLAUDE_CONFIG
  | EvTelegram url form timeout _ =>
      url = tg_url h /\ timeout = 15
      /\ exists chunk, form = tg_form h chunk /\ 1 <= length chunk <= 4000
  | EvClaude url headers body timeout _ =>
      url = claude_url /\ timeout = 60
      /\ exists key prompt,
           headers = claude_headers key /\ body = claude_payload prompt
  end.

(** Standard output and the log file go together: what the run sets
    out to append is each printed line and its newline, in the same
    order. *)
Definition mirrored (d : trace) : Prop :=
  tried d = map (fun line => line ++ nl) (printed d).

(** Nothing was posted to the delivery channel. *)
Definition early (d : trace) : Prop := posts d = [].

(** What a computation adds falls in two parts: a first one in which
    nothing is posted to the delivery channel, then one of logging and
    delivery only. *)
Definition two_phases (d : trace) : Prop :=
  exists d1 d2, d = d1 ++ d2 /\ posts d1 = [] /\ quiet d2.

(** A computation that stays in the first phase as long as it returns,
    and whose exception handlers make the second. *)
Definition phased {A : Type} (m : M A) : Prop :=
  forall t,
    exists d,
      snd (m t) = t ++ d /\ two_phases d
      /\ (forall a, fst (m t) = Ok a -> posts d = []).

(** The exception that a reply of the delivery channel makes [tg] raise,
    if any: the failure of the request, or the [AttributeError] of
    [r.get] on a reply that is not a dict. *)
Definition tg_raises (r : reply json) : option str :=
  match r with
  | Failed msg => Some msg
  | Got (JObj _) => None
  | Got v => Some (u "'" ++ type_name v ++ u "' object has no attribute 'get'")
  end.

(** The first and the last character of a text, if any, are not
    whitespace. *)
Definition trimmed (s : str) : Prop :=
  match s with
  | [] => True
  | c :: _ => is_space c = false
  end
  /\ match rev s with
     | [] => True
     | c :: _ => is_space c = false
     end.

Definition claude_request_of (e : event)
    : list (str * list (str * json) * json * nat) :=
  match e with
  | EvClaude url headers body timeout _ => [(url, headers, body, timeout)]
  | _ => []
  end.

(** The requests made to the summarizer: address, headers, body and
    timeout. *)
Definition claude_requests (t : trace)
    : list (str * list (str * json) * json * nat) :=
  flat_map claude_request_of t.

(** * Chunking *)

Section Chunking.

Context {A : Type}.
Variable n : nat.
Hypothesis n_pos : 0 < n.

Lemma ceil_div_zero : ceil_div 0 n = 0.
Proof.
  unfold ceil_div. apply Nat.div_small. lia.
Qed.

Lemma ceil_div_step (d : nat) :
  0 < d -> ceil_div d n = S (ceil_div (d - n) n).
Proof.
  intro Hd. unfold ceil_div.
  destruct (Nat.le_gt_cases n d) as [Hle | Hlt].
  - replace (d + (n - 1)) with ((d - n + (n - 1)) + 1 * n) by lia.
    rewrite Nat.div_add by lia. lia.
  - replace (d - n) with 0 by lia.
    rewrite (Nat.div_small (0 + (n - 1))) by lia.
    replace (d + (n - 1)) with ((d - 1) + 1 * n) by lia.
    rewrite Nat.div_add by lia.
    rewrite Nat.div_small by lia. reflexivity.
Qed.

Lemma range_from_length (fuel start stop : nat) :
  stop - start <= fuel ->
  length (range_from fuel start stop n) = ceil_div (stop - start) n.
Proof.
  revert start. induction fuel as [| f IH]; intros start Hfuel.
  - replace (stop - start) with 0 by lia. now rewrite ceil_div_zero.
  - cbn [range_from]. destruct (Nat.ltb_spec start stop) as [Hlt | Hge].
    + cbn [length]. rewrite IH by lia.
      rewrite (ceil_div_step (stop - start)) by lia.
      do 2 f_equal. lia.
    + replace (stop - start) with 0 by lia. now rewrite ceil_div_zero.
Qed.

Lemma slice_step (text : list A) (i : nat) :
  slice text i (i + n) = firstn n (skipn i text).
Proof.
  unfold slice. f_equal. lia.
Qed.

Lemma concat_slices_from (text : list A) (fuel start : nat) :
  length text - start <= fuel ->
  concat (map (fun i => slice text i (i + n))
              (range_from fuel start (length text) n))
  = skipn start text.
Proof.
  revert start. induction fuel as [| f IH]; intros start Hfuel.
  - cbn. symmetry. apply skipn_all2. lia.
  - cbn [range_from]. destruct (Nat.ltb_spec start (length text)) as [Hlt | Hge].
    + cbn [map concat]. rewrite IH by lia. rewrite slice_step.
      replace (start + n) with (n + start) by lia.
      rewrite <- skipn_skipn. apply firstn_skipn.
    + cbn. symmetry. apply skipn_all2. lia.
Qed.

Lemma chunks_by_length (text : list A) :
  length (chunks_by n text) = ceil_div (length text) n.
Proof.
  unfold chunks_by, range. rewrite length_map, range_from_length by lia.
  f_equal. lia.
Qed.

Lemma chunks_by_concat (text : list A) :
  concat (chunks_by n text) = text.
Proof.
  unfold chunks_by, range. now rewrite concat_slices_from by lia.
Qed.

Lemma chunks_by_bound (text : list A) :
  Forall (fun c => length c <= n) (chunks_by n text).
Proof.
  unfold chunks_by. apply Forall_map, Forall_forall. intros i _.
  rewrite slice_step, length_firstn. lia.
Qed.

Lemma range_from_fuel (fuel1 fuel2 start stop : nat) :
  stop - start <= fuel1 -> stop - start <= fuel2 ->
  range_from fuel1 start stop n = range_from fuel2 start stop n.
Proof.
  revert fuel2 start.
  induction fuel1 as [| f1 IH]; intros [| f2] start H1 H2; cbn [range_from];
    try reflexivity.
  - destruct (Nat.ltb_spec start stop); [lia | reflexivity].
  - destruct (Nat.ltb_spec start stop); [lia | reflexivity].
  - destruct (Nat.ltb_spec start stop); [| reflexivity].
    f_equal. apply IH; lia.
Qed.

Lemma range_from_shift (fuel start stop k : nat) :
  range_from fuel (start + k) (stop + k) n
  = map (fun i => i + k) (range_from fuel start stop n).
Proof.
  revert start. induction fuel as [| f IH]; intro start; cbn [range_from map].
  - reflexivity.
  - destruct (Nat.ltb_spec start stop), (Nat.ltb_spec (start + k) (stop + k));
      try lia; cbn [map]; [| reflexivity].
    f_equal. rewrite <- IH. f_equal. lia.
Qed.

Lemma slice_skipn (text : list A) (i j k : nat) :
  slice text (i + k) (j + k) = slice (skipn k text) i j.
Proof.
  unfold slice. rewrite skipn_skipn. f_equal. lia.
Qed.

Lemma chunks_by_nil : chunks_by n (@nil A) = [].
Proof. reflexivity. Qed.

(** The chunks of a non-empty text: its first [n] items, then the chunks
    of what is left. *)
Lemma chunks_by_cons (text : list A) :
  text <> [] ->
  chunks_by n text = firstn n text :: chunks_by n (skipn n text).
Proof.
  intro Hne. unfold chunks_by, range.
  assert (Hlen : 0 < length text) by (destruct text; [congruence | cbn; lia]).
  rewrite length_skipn.
  destruct (length text) as [| f] eqn:EL; [lia |].
  cbn [range_from]. destruct (Nat.ltb_spec 0 (S f)); [| lia].
  cbn [map]. f_equal.
  - rewrite slice_step. reflexivity.
  - destruct (Nat.le_gt_cases n (S f)) as [Hle | Hgt].
    + replace (S f) with ((S f - n) + n) at 1 by lia.
      rewrite range_from_shift, map_map.
      rewrite (range_from_fuel f (S f - n)) by lia.
      apply map_ext. intro i. apply slice_skipn.
    + replace (S f - n) with 0 by lia. cbn [range_from map].
      destruct f as [| f']; cbn [range_from]; [reflexivity |].
      destruct (Nat.ltb_spec (0 + n) (S (S f'))); [lia | reflexivity].
Qed.

End Chunking.

Lemma chunks_nonempty (text : str) : text <> [] -> chunks text <> [].
Proof.
  intro Hne. unfold chunks. rewrite chunks_by_cons by (auto; unfold chunk_size; lia).
  discriminate.
Qed.

Lemma nonempty_length {A : Type} (l : list A) : 0 < length l -> l <> [].
Proof. destruct l; [cbn; lia | discriminate]. Qed.

(** A text that fits in one chunk is its own single chunk. *)
Lemma chunks_by_short {A : Type} (n : nat) (text : list A) :
  0 < n -> text <> [] -> length text <= n -> chunks_by n text = [text].
Proof.
  intros Hn Hne Hlen. rewrite chunks_by_cons by assumption.
  rewrite firstn_all2 by exact Hlen.
  rewrite skipn_all2 by exact Hlen. reflexivity.
Qed.

(** The sizes of the chunks of a text of two full chunks and a rest. *)
Lemma chunks_by_sizes3 {A : Type} (n a : nat) (text : list A) :
  0 < n -> 0 < a <= n -> length text = n + n + a ->
  map (@length A) (chunks_by n text) = [n; n; a].
Proof.
  intros Hn Ha Hlen.
  rewrite chunks_by_cons by (auto; apply nonempty_length; lia).
  rewrite (chunks_by_cons n Hn (skipn n text))
    by (apply nonempty_length; rewrite length_skipn; lia).
  rewrite (chunks_by_short n (skipn n (skipn n text)) Hn)
    by (try apply nonempty_length; rewrite !length_skipn; lia).
  cbn [map]. rewrite !length_firstn, !length_skipn.
  repeat f_equal; lia.
Qed.

(** * Running the effects *)

Section Runs.

Variable h : host.

Lemma shells_app (a b : trace) : shells (a ++ b) = shells a ++ shells b.
Proof. apply flat_map_app. Qed.

Lemma shell_failures_app (a b : trace) :
  shell_failures (a ++ b) = shell_failures a ++ shell_failures b.
Proof. apply flat_map_app. Qed.

Lemma posts_app (a b : trace) : posts (a ++ b) = posts a ++ posts b.
Proof. apply flat_map_app. Qed.

Lemma claude_calls_app (a b : trace) :
  claude_calls (a ++ b) = claude_calls a ++ claude_calls b.
Proof. apply flat_map_app. Qed.

Lemma appended_app (a b : trace) :
  appended (a ++ b) = appended a ++ appended b.
Proof. apply flat_map_app. Qed.

Lemma tried_app (a b : trace) : tried (a ++ b) = tried a ++ tried b.
Proof. apply flat_map_app. Qed.

Lemma loads_app (a b : trace) : loads (a ++ b) = loads a ++ loads b.
Proof. apply flat_map_app. Qed.

Lemma nows_app (a b : trace) : nows (a ++ b) = nows a ++ nows b.
Proof. apply flat_map_app. Qed.

Lemma quiet_app (a b : trace) : quiet a -> quiet b -> quiet (a ++ b).
Proof.
  intros (Ha1 & Ha2 & Ha3 & Ha4) (Hb1 & Hb2 & Hb3 & Hb4). unfold quiet.
  rewrite shells_app, claude_calls_app, loads_app, nows_app.
  now rewrite Ha1, Ha2, Ha3, Ha4, Hb1, Hb2, Hb3, Hb4.
Qed.

Lemma quiet_nil : quiet [].
Proof. repeat split. Qed.

Lemma rejections_app (a b : trace) :
  rejections (a ++ b) = rejections a ++ rejections b.
Proof. apply flat_map_app. Qed.

(** A write that failed is a call that failed. *)
Lemma event_ok_append_ok (d : trace) :
  forallb event_ok d = true -> forallb append_ok d = true.
Proof.
  induction d as [| e d IH]; [reflexivity |]. cbn [forallb].
  intros [He Hd]%andb_prop. rewrite (IH Hd), andb_true_r.
  destruct e as [| | path data [u | msg] | | | |]; try reflexivity.
  discriminate.
Qed.


(** When every write went through, what was appended is what the run set
    out to append. *)
Lemma appended_tried (d : trace) :
  forallb append_ok d = true -> appended d = tried d.
Proof.
  induction d as [| e d IH]; [reflexivity |]. cbn [forallb].
  intros [He Hd]%andb_prop.
  change (appended (e :: d)) with (appended_of e ++ appended d).
  change (tried (e :: d)) with (tried_of e ++ tried d).
  rewrite (IH Hd). f_equal.
  destruct e as [| | path data [u | msg] | | | |]; try reflexivity.
  discriminate.
Qed.

Lemma bind_ok {A B : Type} (m : M A) (f : A -> M B) (t t' : trace) (a : A) :
  m t = (Ok a, t') -> bind m f t = f a t'.
Proof. intro E. unfold bind. now rewrite E. Qed.

Lemma bind_raise {A B : Type} (m : M A) (f : A -> M B) (t t' : trace)
    (e : exn) :
  m t = (Raise e, t') -> bind m f t = (Raise e, t').
Proof. intro E. unfold bind. now rewrite E. Qed.

(** [log] reads the clock, prints the line and appends it; it raises
    when the append does, the line printed already. *)
Lemma log_run (msg : str) (t : trace) :
  log h msg t = (result_of_reply (log_reply h t msg), t ++ log_events h t msg).
Proof.
  cbv [log bind strftime_utcnow print append_file emit log_events log_reply].
  now rewrite <- !app_assoc.
Qed.

Lemma bind_log_ok {B : Type} (msg : str) (f : unit -> M B) (t : trace) :
  log_reply h t msg = Got tt ->
  bind (log h msg) f t = f tt (t ++ log_events h t msg).
Proof. intro E. apply bind_ok. now rewrite log_run, E. Qed.

Lemma bind_log_failed {B : Type} (msg e : str) (f : unit -> M B) (t : trace) :
  log_reply h t msg = Failed e ->
  bind (log h msg) f t = (Raise (Exception e), t ++ log_events h t msg).
Proof. intro E. apply bind_raise. now rewrite log_run, E. Qed.

Lemma log_events_quiet (t : trace) (msg : str) : quiet (log_events h t msg).
Proof. repeat split. Qed.

Lemma log_events_posts (t : trace) (msg : str) :
  posts (log_events h t msg) = [].
Proof. reflexivity. Qed.

Lemma log_events_shell_failures (t : trace) (msg : str) :
  shell_failures (log_events h t msg) = [].
Proof. reflexivity. Qed.

Lemma log_events_rejections (t : trace) (msg : str) :
  rejections (log_events h t msg) = [].
Proof. reflexivity. Qed.

Lemma log_events_tried (t : trace) (msg : str) :
  exists ts, tried (log_events h t msg) = [(ts ++ u " " ++ msg) ++ nl].
Proof. eexists. reflexivity. Qed.

Lemma log_events_ok (t : trace) (msg : str) :
  log_reply h t msg = Got tt -> forallb event_ok (log_events h t msg) = true.
Proof. intro E. cbv [log_events forallb event_ok]. now rewrite E. Qed.

Lemma log_events_failed (t : trace) (msg e : str) :
  log_reply h t msg = Failed e ->
  forallb append_ok (log_events h t msg) = false.
Proof. intro E. cbv [log_events forallb append_ok]. now rewrite E. Qed.

Lemma log_events_logged (t : trace) (msg : str) :
  log_reply h t msg = Got tt -> Logged (log_events h t msg) msg.
Proof.
  intro E. exists (utcnow h t (u "%Y-%m-%dT%H:%M:%SZ")).
  cbv [log_events]. rewrite E. cbn [In]. auto.
Qed.

Lemma Logged_app_l (a b : trace) (msg : str) :
  Logged a msg -> Logged (a ++ b) msg.
Proof. intros [ts H]. exists ts. apply in_or_app. now left. Qed.

Lemma Logged_app_r (a b : trace) (msg : str) :
  Logged b msg -> Logged (a ++ b) msg.
Proof. intros [ts H]. exists ts. apply in_or_app. now right. Qed.

(** [run] runs its command once; it returns the trimmed output when the
    command completes and raises when [subprocess.run] does. *)
Lemma run_run (cmd : str) (t : trace) :
  run h cmd t
  = (match shell h t cmd with
     | Got r => Ok (output r)
     | Failed msg => Raise (Exception msg)
     end, t ++ [EvShell cmd (shell h t cmd)]).
Proof.
  unfold run, bind, subprocess_run. cbv zeta.
  destruct (shell h t cmd); reflexivity.
Qed.

Lemma bind_run {B : Type} (cmd : str) (f : str -> M B) (t : trace) :
  bind (run h cmd) f t
  = match shell h t cmd with
    | Got r => f (output r) (t ++ [EvShell cmd (Got r)])
    | Failed msg => (Raise (Exception msg), t ++ [EvShell cmd (Failed msg)])
    end.
Proof.
  unfold bind at 1. rewrite run_run. destruct (shell h t cmd); reflexivity.
Qed.

Lemma post_of_tg_form (url c : str) (timeout : nat) (r : reply json) :
  post_of (EvTelegram url (tg_form h c) timeout r) = [c].
Proof. reflexivity. Qed.

Lemma tg_outcome_one (c : str) (r : result unit) (d : trace) :
  posts d = [c] -> quiet d -> shell_failures d = [] ->
  (r = Ok tt \/ exists msg, r = Raise (Exception msg)) ->
  (forallb event_ok d = true <-> r = Ok tt) ->
  Forall2 (tg_error_line h) (rejections d) (tried d) ->
  tg_outcome h [c] r d.
Proof.
  intros Hp Hq Hs Hr [Hw Hc] Hl.
  split; [exists 1; cbn; repeat split; auto |].
  split; [exact Hq |]. split; [exact Hr |]. split; [exact Hw |].
  split; [exact Hl |]. split; [exact Hc |]. split; [| exact Hs].
  intro Hne. exists [], d. split; [reflexivity |]. split; [reflexivity |].
  split; [now rewrite Hp |].
  destruct (forallb event_ok d); [| reflexivity].
  destruct (Hne (Hw eq_refl)).
Qed.

(** One turn of the loop of [tg]. *)
Lemma tg_chunk_run (url c : str) (t : trace) :
  exists r d,
    tg_chunk h url c t = (r, t ++ d) /\ tg_outcome h [c] r d
    /\ (forall m, post_form h t url (tg_form h c) = Got (JObj m) ->
        (forall t' path data, append_to h t' path data = Got tt) ->
        r = Ok tt).
Proof.
  unfold tg_chunk, bind, telegram_urlopen. cbv zeta.
  destruct (post_form h t url (tg_form h c)) as [v | msg] eqn:E;
    cbn [result_of_reply].
  - destruct v as [| b | z | f | x | l | m].
    1-6: cbn [json_get raise];
      eexists; eexists; split; [reflexivity |];
      (split; [| discriminate]);
      apply tg_outcome_one;
        [reflexivity | repeat split | reflexivity
         | right; eexists; reflexivity
         | split; discriminate
         | constructor].
    cbn [json_get ret].
    destruct (truthy match assoc (u "ok") m with
                     | Some x => x
                     | None => JNull
                     end) eqn:T; cbn [negb].
    + eexists; eexists; split; [reflexivity |]. split; [| reflexivity].
      apply tg_outcome_one;
        [reflexivity | repeat split | reflexivity | now left
         | split; reflexivity |].
      cbn [rejections flat_map rejection_of reply_rejected]. rewrite T.
      constructor.
    + rewrite log_run, <- app_assoc.
      assert (Hl : Forall2 (tg_error_line h)
                     (rejections
                        ([EvTelegram url (tg_form h c) 15 (Got (JObj m))]
                         ++ log_events h
                              (t ++ [EvTelegram url (tg_form h c) 15
                                       (Got (JObj m))])
                              (u "TG error: " ++ repr h (JObj m))))
                     (tried
                        ([EvTelegram url (tg_form h c) 15 (Got (JObj m))]
                         ++ log_events h
                              (t ++ [EvTelegram url (tg_form h c) 15
                                       (Got (JObj m))])
                              (u "TG error: " ++ repr h (JObj m))))).
      { rewrite rejections_app, tried_app.
        cbn [rejections flat_map rejection_of reply_rejected]. rewrite T.
        cbn [negb app]. rewrite log_events_rejections.
        cbn [tried flat_map tried_of app].
        constructor; [| constructor]. eexists. reflexivity. }
      destruct (log_reply h (t ++ [EvTelegram url (tg_form h c) 15
                                     (Got (JObj m))])
                  (u "TG error: " ++ repr h (JObj m))) as [[] | e] eqn:L;
        cbn [result_of_reply].
      * eexists; eexists; split; [reflexivity |]. split; [| reflexivity].
        apply tg_outcome_one;
          [reflexivity | repeat split | reflexivity | now left | | exact Hl].
        split; [reflexivity | intros _].
        rewrite forallb_app, (log_events_ok _ _ L). reflexivity.
      * eexists; eexists; split; [reflexivity |]. split.
        -- apply tg_outcome_one;
             [reflexivity | repeat split | reflexivity
              | right; eexists; reflexivity | | exact Hl].
           split; [| discriminate]. intro Hok.
           apply event_ok_append_ok in Hok.
           rewrite forallb_app, (log_events_failed _ _ _ L) in Hok.
           rewrite andb_false_r in Hok. discriminate.
        -- intros m' _ Happ. unfold log_reply in L. rewrite Happ in L.
           discriminate.
  - eexists; eexists; split; [reflexivity |]. split; [| discriminate].
    apply tg_outcome_one;
      [reflexivity | repeat split | reflexivity
       | right; eexists; reflexivity
       | split; discriminate
       | constructor].
Qed.

(** The whole loop of [tg], over the chunk list [cs]. *)
Lemma tg_loop_run (url : str) (cs : list str) (t : trace) :
  exists r d,
    for_each cs (tg_chunk h url) t = (r, t ++ d) /\ tg_outcome h cs r d
    /\ ((forall t' f, exists m, post_form h t' url f = Got (JObj m)) ->
        (forall t' path data, append_to h t' path data = Got tt) ->
        r = Ok tt).
Proof.
  revert t. induction cs as [| c cs IH]; intro t.
  - exists (Ok tt), []. cbn [for_each ret]. rewrite app_nil_r.
    split; [reflexivity |]. split; [| reflexivity].
    split; [exists 0; repeat split; auto; congruence |].
    split; [apply quiet_nil |]. split; [now left |].
    split; [reflexivity |]. split; [constructor |].
    split; [reflexivity |]. split; [| reflexivity].
    intro Hne. now destruct Hne.
  - cbn [for_each].
    destruct (tg_chunk_run url c t) as (r1 & d1 & E1 & O1 & T1).
    destruct O1
      as ((k1 & Hk1 & Hp1 & _ & Hne1) & Hq1 & Hr1 & Hw1 & Hl1 & Hc1 & Hf1 & Hs1).
    assert (k1 = 1) by (cbn in Hk1; specialize (Hne1 ltac:(discriminate)); lia).
    subst k1. cbn [firstn] in Hp1.
    destruct r1 as [[] | e].
    + rewrite (bind_ok _ _ _ _ _ E1).
      destruct (IH (t ++ d1)) as (r2 & d2 & E2 & O2 & T2).
      destruct O2
        as ((k2 & Hk2 & Hp2 & Hok2 & _) & Hq2 & Hr2 & Hw2 & Hl2 & Hc2 & Hf2
            & Hs2).
      exists r2, (d1 ++ d2). rewrite app_assoc. split; [exact E2 |].
      split; [| exact T2].
      split; [| split; [| split; [| split; [| split; [| split; [| split]]]]]].
      * exists (S k2). cbn [length firstn].
        rewrite posts_app, Hp1, Hp2.
        repeat split; auto; try lia.
      * now apply quiet_app.
      * exact Hr2.
      * rewrite forallb_app. intros [_ H2]%andb_prop. auto.
      * rewrite rejections_app, tried_app. now apply Forall2_app.
      * intro Hr. rewrite forallb_app, (Hc1 eq_refl), (Hc2 Hr). reflexivity.
      * intro Hne. destruct (Hf2 Hne) as (a & b & -> & Ha & Hb1 & Hb2).
        exists (d1 ++ a), b. rewrite app_assoc. split; [reflexivity |].
        split; [| split; assumption].
        rewrite forallb_app, (Hc1 eq_refl), Ha. reflexivity.
      * now rewrite shell_failures_app, Hs1, Hs2.
    + rewrite (bind_raise _ _ _ _ _ E1).
      exists (Raise e), d1. split; [reflexivity |]. split.
      * split; [| split; [exact Hq1 |]].
        -- exists 1. cbn [length firstn]. repeat split; auto; try lia.
           discriminate.
        -- split; [exact Hr1 |]. split; [exact Hw1 |]. split; [exact Hl1 |].
           split; [exact Hc1 |]. split; [exact Hf1 | exact Hs1].
      * intros Hall Happ. destruct (Hall t (tg_form h c)) as [m Hm].
        specialize (T1 m Hm Happ). discriminate.
Qed.

(** [tg] on a text, from any history. *)
Lemma tg_run (text : str) (t : trace) :
  exists r d,
    tg h text t = (r, t ++ d) /\ tg_outcome h (chunks text) r d
    /\ ((forall t' f, exists m, post_form h t' (tg_url h) f = Got (JObj m)) ->
        (forall t' path data, append_to h t' path data = Got tt) ->
        r = Ok tt).
Proof. apply tg_loop_run. Qed.

(** The loop of [tg] stops at the first reply that makes it raise: such a
    reply is the last thing in what [tg] added, and its exception is the
    one [tg] ends with. *)
Lemma tg_loop_stops (url : str) (cs : list str) (t : trace) :
  exists r d,
    for_each cs (tg_chunk h url) t = (r, t ++ d)
    /\ forall url' form timeout rp msg,
         In (EvTelegram url' form timeout rp) d ->
         tg_raises rp = Some msg ->
         r = Raise (Exception msg)
         /\ exists before, d = before ++ [EvTelegram url' form timeout rp].
Proof.
  revert t. induction cs as [| c cs IH]; intro t.
  - exists (Ok tt), []. cbn [for_each ret]. rewrite app_nil_r.
    split; [reflexivity |]. intros ? ? ? ? ? [].
  - cbn [for_each].
    assert (Hlog : forall (t0 : trace) (lm : str) url' form timeout rp,
               ~ In (EvTelegram url' form timeout rp) (log_events h t0 lm)).
    { intros t0 lm url' form timeout rp. cbv [log_events]. cbn [In].
      intros [H | [H | [H | []]]]; discriminate. }
    assert (Hone : forall (rp0 : reply json) url' form timeout rp msg,
               In (EvTelegram url' form timeout rp)
                 [EvTelegram url (tg_form h c) 15 rp0] ->
               tg_raises rp = Some msg ->
               tg_raises rp0 = Some msg
               /\ exists before,
                    [EvTelegram url (tg_form h c) 15 rp0]
                    = before ++ [EvTelegram url' form timeout rp]).
    { intros rp0 url' form timeout rp msg [H | []] Hr.
      injection H as <- <- <- <-. split; [exact Hr |]. now exists []. }
    set (rest := for_each cs (tg_chunk h url)) in *. clearbody rest.
    unfold tg_chunk, bind, telegram_urlopen. cbv zeta.
    destruct (post_form h t url (tg_form h c)) as [v | e] eqn:E;
      cbn [result_of_reply].
    + destruct v as [| b | z | f | x | l | m].
      1-6: cbn [json_get raise];
        eexists; eexists; (split; [reflexivity |]);
        intros url' form timeout rp msg Hin Hr;
        destruct (Hone _ _ _ _ _ _ Hin Hr) as (Hm & Hb);
        (split; [| exact Hb]); cbn [tg_raises] in Hm; now injection Hm as <-.
      cbn [json_get ret].
      destruct (negb (truthy match assoc (u "ok") m with
                             | Some x => x
                             | None => JNull
                             end)).
      * rewrite log_run.
        destruct (log_reply h (t ++ [EvTelegram url (tg_form h c) 15
                                       (Got (JObj m))])
                    (u "TG error: " ++ repr h (JObj m))) as [[] | e];
          cbn [result_of_reply].
        -- match goal with
           | |- context [rest ?t1] =>
               destruct (IH t1) as (r2 & d2 & E2 & H2)
           end.
           rewrite E2. eexists; eexists.
           split; [rewrite <- !app_assoc; reflexivity |].
           intros url' form timeout rp msg Hin Hr.
           apply in_app_or in Hin. destruct Hin as [Hin | Hin].
           ++ destruct (Hone _ _ _ _ _ _ Hin Hr) as (Hm & _). discriminate.
           ++ apply in_app_or in Hin. destruct Hin as [Hin | Hin];
                [now apply Hlog in Hin |].
              destruct (H2 _ _ _ _ _ Hin Hr) as (-> & before & ->).
              split; [reflexivity |]. eexists.
              rewrite !app_assoc. reflexivity.
        -- eexists; eexists.
           split; [rewrite <- !app_assoc; reflexivity |].
           intros url' form timeout rp msg Hin Hr.
           apply in_app_or in Hin. destruct Hin as [Hin | Hin];
             [| now apply Hlog in Hin].
           destruct (Hone _ _ _ _ _ _ Hin Hr) as (Hm & _). discriminate.
      * unfold ret.
        match goal with
        | |- context [rest ?t1] =>
            destruct (IH t1) as (r2 & d2 & E2 & H2)
        end.
        rewrite E2. eexists; eexists.
        split; [rewrite <- !app_assoc; reflexivity |].
        intros url' form timeout rp msg Hin Hr.
        apply in_app_or in Hin. destruct Hin as [Hin | Hin].
        -- destruct (Hone _ _ _ _ _ _ Hin Hr) as (Hm & _). discriminate.
        -- destruct (H2 _ _ _ _ _ Hin Hr) as (-> & before & ->).
           split; [reflexivity |]. eexists.
           rewrite !app_assoc. reflexivity.
    + eexists; eexists; (split; [reflexivity |]).
      intros url' form timeout rp msg Hin Hr.
      destruct (Hone _ _ _ _ _ _ Hin Hr) as (Hm & Hb).
      split; [| exact Hb]. cbn [tg_raises] in Hm. now injection Hm as <-.
Qed.

Ltac run_failed HF :=
  rewrite <- ?app_assoc; cbn [app]; apply HF;
  lazymatch goal with
  | |- collect_failed ?m ?d =>
      let pre := eval cbn [removelast] in (removelast d) in
      let n := eval cbn [length] in (length pre) in
      exists pre; eexists; exists n;
      split; [reflexivity |];
      split; [reflexivity |];
      split; [reflexivity |];
      split; [lia | reflexivity]
  end.

Ltac run_step r HF :=
  rewrite bind_run;
  match goal with
  | |- context [shell h ?t ?c] => destruct (shell h t c) as [r | ?msg]
  end; [| run_failed HF].

(** [collect] runs its twenty commands in order; when each completes it
    stores the nine sections and returns, and the first that cannot
    complete ends it with the exception of [subprocess.run]. *)
Lemma collect_run (t : trace) :
  (exists p, collect h t = (Ok (snapshot p), t ++ probe_events p))
  \/ (exists msg d,
         collect h t = (Raise (Exception msg), t ++ d)
         /\ collect_failed msg d).
Proof.
  enough (W : forall P : result dict * trace -> Prop,
             (forall p, P (Ok (snapshot p), t ++ probe_events p)) ->
             (forall msg d, collect_failed msg d ->
                            P (Raise (Exception msg), t ++ d)) ->
             P (collect h t)).
  { apply W.
    - intro p. left. exists p. reflexivity.
    - intros msg d Hd. right. exists msg, d. split; [reflexivity | exact Hd]. }
  intros P HP HF. unfold collect. cbv zeta.
  run_step r1 HF.
  run_step r2 HF.
  run_step r3 HF.
  run_step r4 HF.
  run_step r5 HF.
  run_step r6 HF.
  run_step r7 HF.
  run_step r8 HF.
  run_step r9 HF.
  run_step r10 HF.
  run_step r11 HF.
  run_step r12 HF.
  run_step r13 HF.
  run_step r14 HF.
  run_step r15 HF.
  run_step r16 HF.
  run_step r17 HF.
  run_step r18 HF.
  run_step r19 HF.
  run_step r20 HF.
  cbv [ret]. rewrite <- !app_assoc. cbn [app].
  exact (HP (Build_probes r1 r2 r3 r4 r5 r6 r7 r8 r9 r10 r11 r12 r13 r14 r15
               r16 r17 r18 r19 r20)).
Qed.

(** When every command completes, [collect] returns. *)
Lemma collect_returns (t : trace) :
  (forall t' cmd, exists r, shell h t' cmd = Got r) ->
  exists p, collect h t = (Ok (snapshot p), t ++ probe_events p).
Proof.
  intro Hall.
  enough (W : forall P : result dict * trace -> Prop,
             (forall p, P (Ok (snapshot p), t ++ probe_events p)) ->
             P (collect h t)).
  { apply W. intro p. exists p. reflexivity. }
  intros P HP. unfold collect. cbv zeta.
  repeat (rewrite bind_run;
          match goal with
          | |- context [shell h ?t ?c] =>
              let r := fresh "r" in
              let E := fresh "E" in
              destruct (Hall t c) as [r E]; rewrite E; clear E
          end).
  cbv [ret]. rewrite <- !app_assoc. cbn [app].
  match goal with
  | |- P (_, _ ++ [EvShell _ (Got ?r1); EvShell _ (Got ?r2);
                   EvShell _ (Got ?r3); EvShell _ (Got ?r4);
                   EvShell _ (Got ?r5); EvShell _ (Got ?r6);
                   EvShell _ (Got ?r7); EvShell _ (Got ?r8);
                   EvShell _ (Got ?r9); EvShell _ (Got ?r10);
                   EvShell _ (Got ?r11); EvShell _ (Got ?r12);
                   EvShell _ (Got ?r13); EvShell _ (Got ?r14);
                   EvShell _ (Got ?r15); EvShell _ (Got ?r16);
                   EvShell _ (Got ?r17); EvShell _ (Got ?r18);
                   EvShell _ (Got ?r19); EvShell _ (Got ?r20)]) =>
      exact (HP (Build_probes r1 r2 r3 r4 r5 r6 r7 r8 r9 r10 r11 r12 r13 r14
                   r15 r16 r17 r18 r19 r20))
  end.
Qed.

Lemma collect_failed_shows (msg : str) (d : trace) :
  collect_failed msg d ->
  posts d = [] /\ claude_calls d = [] /\ loads d = [] /\ nows d = []
  /\ tried d = [] /\ shell_failures d = [msg]
  /\ forallb event_ok d = false /\ forallb append_ok d = true
  /\ length d = length (shells d)
  /\ exists n, n < 20 /\ shells d = firstn (S n) commands.
Proof.
  intros (pre & cmd & n & -> & Hpre & Hsh & Hn & Hs).
  assert (Honly : forall l : trace,
             forallb is_shell l = true ->
             posts l = [] /\ claude_calls l = [] /\ loads l = []
             /\ nows l = [] /\ tried l = [] /\ forallb append_ok l = true
             /\ length l = length (shells l)).
  { induction l as [| e l IH]; [repeat split |]. cbn [forallb].
    intros [He Hl]%andb_prop.
    destruct (IH Hl) as (H1 & H2 & H3 & H4 & H5 & H6 & H7).
    destruct e; try discriminate.
    cbn [posts claude_calls loads nows tried flat_map post_of claude_call_of
         load_of now_of tried_of shells shell_of app forallb append_ok
         andb length].
    repeat split; auto. }
  assert (Hnone : forall l : trace,
             forallb is_shell l = true -> forallb event_ok l = true ->
             shell_failures l = []).
  { induction l as [| e l IH]; [reflexivity |]. cbn [forallb].
    intros [He Hl]%andb_prop [Ho Hol]%andb_prop.
    destruct e as [| | | c [r | m] | | |]; try discriminate.
    cbn [shell_failures flat_map shell_failure_of app]. now apply IH. }
  destruct (Honly _ Hsh) as (H1 & H2 & H3 & H4 & H5 & H6 & H7).
  rewrite forallb_app in Hsh. apply andb_prop in Hsh. destruct Hsh as [Hsp _].
  repeat split; auto.
  - rewrite shell_failures_app, (Hnone pre Hsp Hpre). reflexivity.
  - rewrite forallb_app. cbn [forallb event_ok]. apply andb_false_r.
  - now exists n.
Qed.

Lemma try_except_ok {A : Type} (m : M A) (handler : str -> M A)
    (t t' : trace) (a : A) :
  m t = (Ok a, t') -> try_except m handler t = (Ok a, t').
Proof. intro E. unfold try_except. now rewrite E. Qed.

Lemma try_except_raise {A : Type} (m : M A) (handler : str -> M A)
    (t t' : trace) (msg : str) :
  m t = (Raise (Exception msg), t') -> try_except m handler t = handler msg t'.
Proof. intro E. unfold try_except. now rewrite E. Qed.

Lemma bind_clock {B : Type} (fmt : str) (f : str -> M B) (t : trace) :
  bind (strftime_utcnow h fmt) f t
  = f (utcnow h t fmt) (t ++ [EvClock fmt (utcnow h t fmt)]).
Proof. reflexivity. Qed.

Lemma call_claude_run (api_key : json) (prompt : str) (t : trace) :
  call_claude h api_key prompt t
  = (result_of_reply
       (post_json h t claude_url (claude_headers api_key)
          (claude_payload prompt)),
     t ++ [EvClaude claude_url (claude_headers api_key)
             (claude_payload prompt) 60
             (post_json h t claude_url (claude_headers api_key)
                (claude_payload prompt))]).
Proof. reflexivity. Qed.

(** The first [try] of [main]: the key loads or the [except] is due, one
    or the other, with the file read once. *)
Lemma load_api_key_cases (t : trace) :
  let rl := load_json h t CLAUDE_CONFIG in
  (exists k, key_loads rl k
             /\ load_api_key h t = (Ok k, t ++ [EvLoad CLAUDE_CONFIG rl]))
  \/ (exists msg, key_load_fails rl msg
                  /\ load_api_key h t
                     = (Raise (Exception msg), t ++ [EvLoad CLAUDE_CONFIG rl])).
Proof.
  cbv zeta. unfold load_api_key, bind, json_load_file. cbv zeta.
  destruct (load_json h t CLAUDE_CONFIG) as [v | msg]; cbn [result_of_reply].
  - destruct v as [| b | z | f | x | l | m];
      try (right; eexists; split;
           [apply NotADict; discriminate | reflexivity]).
    cbn [json_get ret].
    destruct (assoc (u "primaryApiKey") m) as [v |] eqn:Ek.
    + destruct (truthy v) eqn:Tv; cbn [negb].
      * left. exists v. split; [| reflexivity]. now exists m.
      * right. eexists. split; [| reflexivity]. now apply KeyFalsy with v.
    + right. eexists. split; [| reflexivity]. now apply KeyMissing.
  - right. exists msg. split; [constructor | reflexivity].
Qed.

(** An [except] block of [main]: log, notice, exit.  It never returns. *)
Lemma handler_run {A : Type} (logmsg notice : str) (t : trace) :
  exists out e,
    handled h logmsg notice t out
    /\ out = (Raise e, snd out)
    /\ (log h logmsg ;; tg h notice ;; @sys_exit A 1) t = (Raise e, snd out).
Proof.
  unfold handled.
  destruct (log_reply h t logmsg) as [[] | msg] eqn:L.
  - rewrite (bind_log_ok _ _ _ L).
    destruct (tg_run notice (t ++ log_events h t logmsg)) as (rt & d & E & O & _).
    exists (after_notice rt, (t ++ log_events h t logmsg) ++ d).
    destruct rt as [[] | e].
    + exists (SystemExit 1). split; [now exists (Ok tt), d |].
      split; [reflexivity |]. now rewrite (bind_ok _ _ _ _ _ E).
    + exists e. split; [now exists (Raise e), d |].
      split; [reflexivity |]. now rewrite (bind_raise _ _ _ _ _ E).
  - rewrite (bind_log_failed _ _ _ _ L).
    exists (Raise (Exception msg), t ++ log_events h t logmsg), (Exception msg).
    repeat split.
Qed.

(** The second [try] of [main], from any history: a command cannot
    complete; or a log line cannot be written; or the summarizer is
    called, and then it raises, or the delivery raises, or all goes
    well. *)
Lemma deliver_digest_run (api_key : json) (now : str) (t : trace) :
  (exists msg d,
      collect_failed msg d
      /\ deliver_digest h api_key now t = (Raise (Exception msg), t ++ d))
  \/ (exists msg d,
         forallb append_ok d = false
         /\ deliver_digest h api_key now t = (Raise (Exception msg), t ++ d))
  \/ (exists p,
         let tc := (t ++ probe_events p)
                   ++ log_events h (t ++ probe_events p)
                        (u "data collected, calling " ++ MODEL) in
         let body := claude_payload (build_prompt (snapshot p) now) in
         let rc := post_json h tc claude_url (claude_headers api_key) body in
         let ta := tc ++ [EvClaude claude_url (claude_headers api_key) body 60
                            rc] in
         match rc with
         | Failed msg =>
             deliver_digest h api_key now t = (Raise (Exception msg), ta)
         | Got report =>
             let t' := ta ++ log_events h ta
                               (u "response received, sending to Telegram") in
             exists rt d,
               tg_outcome h (chunks (digest_text now report)) rt d
               /\ match rt with
                  | Ok _ =>
                      log_reply h (t' ++ d) (u "digest sent OK") = Got tt
                      /\ deliver_digest h api_key now t
                         = (Ok tt, (t' ++ d)
                                   ++ log_events h (t' ++ d)
                                        (u "digest sent OK"))
                  | Raise e =>
                      deliver_digest h api_key now t = (Raise e, t' ++ d)
                  end
         end).
Proof.
  unfold deliver_digest.
  destruct (collect_run t) as [[p Ep] | (msg & d & Ed & Hd)].
  2: { left. exists msg, d. split; [exact Hd |].
       now rewrite (bind_raise _ _ _ _ _ Ed). }
  rewrite (bind_ok _ _ _ _ _ Ep). cbv zeta.
  destruct (log_reply h (t ++ probe_events p)
              (u "data collected, calling " ++ MODEL)) as [[] | e1] eqn:L1.
  2: { right. left.
       exists e1, (probe_events p
                   ++ log_events h (t ++ probe_events p)
                        (u "data collected, calling " ++ MODEL)).
       split.
       - rewrite forallb_app, (log_events_failed _ _ _ L1).
         apply andb_false_r.
       - rewrite (bind_log_failed _ _ _ _ L1), app_assoc. reflexivity. }
  rewrite (bind_log_ok _ _ _ L1).
  set (tc := (t ++ probe_events p) ++ log_events h (t ++ probe_events p) (u "data collected, calling " ++ MODEL)).
  pose proof (call_claude_run api_key (build_prompt (snapshot p) now) tc) as Ec.
  destruct (post_json h tc claude_url (claude_headers api_key)
              (claude_payload (build_prompt (snapshot p) now)))
    as [report | msg] eqn:Erc; cbn [result_of_reply] in Ec.
  2: { right. right. exists p. cbv zeta. fold tc. rewrite Erc.
       now rewrite (bind_raise _ _ _ _ _ Ec). }
  rewrite (bind_ok _ _ _ _ _ Ec).
  set (ta := tc ++ [EvClaude claude_url (claude_headers api_key)
                      (claude_payload (build_prompt (snapshot p) now)) 60
                      (Got report)]).
  destruct (log_reply h ta (u "response received, sending to Telegram"))
    as [[] | e2] eqn:L2.
  2: { right. left.
       exists e2, (((probe_events p
                     ++ log_events h (t ++ probe_events p)
                          (u "data collected, calling " ++ MODEL))
                    ++ [EvClaude claude_url (claude_headers api_key)
                          (claude_payload (build_prompt (snapshot p) now)) 60
                          (Got report)])
                   ++ log_events h ta
                        (u "response received, sending to Telegram")).
       split.
       - rewrite !forallb_app, (log_events_failed _ _ _ L2).
         now rewrite !andb_false_r.
       - rewrite (bind_log_failed _ _ _ _ L2). f_equal.
         rewrite !app_assoc. reflexivity. }
  rewrite (bind_log_ok _ _ _ L2).
  set (t' := ta ++ log_events h ta (u "response received, sending to Telegram")).
  destruct (tg_run (digest_text now report) t') as (rt & d & Et & Ot & _).
  destruct rt as [[] | e].
  - rewrite (bind_ok _ _ _ _ _ Et), log_run.
    destruct (log_reply h (t' ++ d) (u "digest sent OK")) as [[] | e3] eqn:L3;
      cbn [result_of_reply].
    + right. right. exists p. cbv zeta. fold tc. rewrite Erc. fold ta. fold t'.
      exists (Ok tt), d. split; [exact Ot |]. split; [exact L3 | reflexivity].
    + right. left.
      exists e3, (((((probe_events p
                      ++ log_events h (t ++ probe_events p)
                           (u "data collected, calling " ++ MODEL))
                     ++ [EvClaude claude_url (claude_headers api_key)
                           (claude_payload (build_prompt (snapshot p) now)) 60
                           (Got report)])
                    ++ log_events h ta
                         (u "response received, sending to Telegram"))
                   ++ d)
                  ++ log_events h (t' ++ d) (u "digest sent OK")).
      split.
      * rewrite !forallb_app, (log_events_failed _ _ _ L3).
        now rewrite !andb_false_r.
      * f_equal. rewrite !app_assoc. reflexivity.
  - rewrite (bind_raise _ _ _ _ _ Et).
    right. right. exists p. cbv zeta. fold tc. rewrite Erc. fold ta. fold t'.
    exists (Raise e), d. split; [exact Ot | reflexivity].
Qed.

(** Every run of [main] goes one of the seven ways. *)
Lemma main_cases : main_outcome h (main h []).
Proof.
  unfold main.
  destruct (log_reply h [] (u "digest started")) as [[] | e0] eqn:L0.
  2: { rewrite (bind_log_failed _ _ _ _ L0). exact (StartError h e0 L0). }
  rewrite (bind_log_ok _ _ _ L0).
  change ([] ++ log_events h [] (u "digest started")) with (started h).
  destruct (load_api_key_cases (started h)) as [(k & Hk & E) | (msg & Hf & E)];
    cbv zeta in E.
  - (* the key loaded *)
    rewrite (bind_ok _ _ _ _ _ (try_except_ok _ _ _ _ _ E)).
    rewrite bind_clock.
    generalize (utcnow h (started h ++ [EvLoad CLAUDE_CONFIG (load_json h (started h) CLAUDE_CONFIG)]) (u "%Y-%m-%d %H:%M")).
    generalize dependent (load_json h (started h) CLAUDE_CONFIG).
    intros rl Hk _ now.
    fold (keyed h rl now).
    destruct (deliver_digest_run k now (keyed h rl now))
      as [(msg & d & Hd & Ed) | [(msg & d & Hd & Ed) | [p Hp]]].
    + (* a command could not complete *)
      rewrite (try_except_raise _ _ _ _ _ Ed).
      destruct (@handler_run unit (u "ERROR: " ++ msg)
                  (script_error_notice msg) (keyed h rl now ++ d))
        as (out & e & Hh & Eo & Eh).
      rewrite Eh, <- Eo.
      exact (CollectError h rl k now msg d out Hk Hd Hh).
    + (* a log line could not be written *)
      rewrite (try_except_raise _ _ _ _ _ Ed).
      destruct (@handler_run unit (u "ERROR: " ++ msg)
                  (script_error_notice msg) (keyed h rl now ++ d))
        as (out & e & Hh & Eo & Eh).
      rewrite Eh, <- Eo.
      exact (LogError h rl k now msg d out Hk Hd Hh).
    + cbv zeta in Hp. fold (collected h rl now p) in Hp.
      destruct (post_json h (collected h rl now p) claude_url
                  (claude_headers k)
                  (claude_payload (build_prompt (snapshot p) now)))
        as [report | msg].
      * (* the summarizer answered *)
        fold (asked h rl k now p (Got report)) in Hp.
        destruct Hp as (rt & d & Ot & Ed).
        destruct rt as [[] | e].
        -- destruct Ed as [L3 Ed].
           rewrite (try_except_ok _ _ _ _ _ Ed).
           exact (Delivered h rl k now p report d Hk Ot L3).
        -- pose proof Ot as (_ & _ & [Hr | [msg Hr]] & _); [discriminate |].
           injection Hr as ->.
           rewrite (try_except_raise _ _ _ _ _ Ed).
           match goal with
           | |- context [bind (log h ?lm) ?f ?t] =>
               destruct (@handler_run unit lm (script_error_notice msg) t)
                 as (out & e & Hh & Eo & Eh)
           end.
           rewrite Eh, <- Eo.
           exact (DeliveryError h rl k now p report msg d out Hk Ot Hh).
      * (* the summarizer call raised *)
        fold (asked h rl k now p (Failed msg)) in Hp.
        rewrite (try_except_raise _ _ _ _ _ Hp).
        destruct (@handler_run unit (u "ERROR: " ++ msg)
                    (script_error_notice msg) (asked h rl k now p (Failed msg)))
          as (out & e & Hh & Eo & Eh).
        rewrite Eh, <- Eo.
        exact (SummaryError h rl k now p msg out Hk Hh).
  - (* the key did not load *)
    destruct (@handler_run json (u "ERROR loading API key: " ++ msg)
                (key_error_notice msg)
                (started h ++ [EvLoad CLAUDE_CONFIG
                                 (load_json h (started h) CLAUDE_CONFIG)]))
      as (out & e & Hh & Eo & Eh).
    rewrite (bind_raise _ _ _ (snd out) e).
    + rewrite <- Eo. exact (KeyError h _ msg out eq_refl Hf Hh).
    + rewrite (try_except_raise _ _ _ _ _ E). exact Eh.
Qed.

End Runs.

(** * What the histories of [main] show *)

Section Histories.

Variable h : host.

Lemma started_shows :
  shells (started h) = [] /\ posts (started h) = []
  /\ claude_calls (started h) = [] /\ loads (started h) = []
  /\ nows (started h) = [] /\ shell_failures (started h) = [].
Proof. repeat split. Qed.

Lemma probe_events_shells (p : probes) : shells (probe_events p) = commands.
Proof. reflexivity. Qed.

Lemma keyed_shows (rl : reply json) (now : str) :
  let t := keyed h rl now in
  shells t = [] /\ posts t = [] /\ claude_calls t = []
  /\ loads t = [rl] /\ nows t = [now] /\ shell_failures t = [].
Proof. repeat split. Qed.

(** What the history shows when the summarizer has just been called. *)
Lemma asked_shows (rl : reply json) (k : json) (now : str) (p : probes)
    (rc : reply str) :
  let t := asked h rl k now p rc in
  shells t = commands /\ posts t = []
  /\ claude_calls t = [(claude_payload (build_prompt (snapshot p) now), rc)]
  /\ loads t = [rl] /\ nows t = [now] /\ shell_failures t = []
  /\ (forall msg, rc = Failed msg -> forallb event_ok t = false).
Proof.
  cbv zeta.
  assert (Hbad : forall msg, rc = Failed msg ->
                             forallb event_ok (asked h rl k now p rc) = false).
  { intros msg ->. unfold asked. rewrite forallb_app.
    cbn [forallb event_ok]. apply andb_false_r. }
  unfold asked, collected, keyed in *. cbv zeta in *.
  unfold started, log_events in *. cbv zeta in *.
  cbn [app] in *.
  split; [reflexivity |]. split; [reflexivity |]. split; [reflexivity |].
  split; [reflexivity |]. split; [reflexivity |]. split; [reflexivity |].
  exact Hbad.
Qed.

Lemma key_loads_ok (rl : reply json) (k : json) : key_loads rl k -> key_ok rl = true.
Proof.
  intros (m & -> & Hk & Ht). cbn [key_ok]. now rewrite Hk.
Qed.

Lemma key_load_fails_not_ok (rl : reply json) (msg : str) :
  key_load_fails rl msg -> key_ok rl = false.
Proof.
  intros [m | v Hv | m Hm | m v Hm Hv]; cbn [key_ok].
  - reflexivity.
  - destruct v; try reflexivity. now destruct (Hv members).
  - now rewrite Hm.
  - now rewrite Hm.
Qed.

Lemma key_load_fails_fun (rl : reply json) (m1 m2 : str) :
  key_load_fails rl m1 -> key_load_fails rl m2 -> m1 = m2.
Proof.
  intros H1 H2.
  destruct H1 as [m | v Hv | m Hm | m v Hm Hvv].
  - inversion H2. reflexivity.
  - inversion H2 as [| v' Hv' | m' Hm' Ev | m' v' Hm' Hvv' Ev].
    + reflexivity.
    + now destruct (Hv m').
    + now destruct (Hv m').
  - inversion H2 as [| v' Hv' | |].
    + now destruct (Hv' m).
    + reflexivity.
    + reflexivity.
  - inversion H2 as [| v' Hv' | |].
    + now destruct (Hv' m).
    + reflexivity.
    + reflexivity.
Qed.

Lemma key_error_notice_nonempty (msg : str) : key_error_notice msg <> [].
Proof. discriminate. Qed.

Lemma script_error_notice_nonempty (msg : str) : script_error_notice msg <> [].
Proof. discriminate. Qed.

Lemma digest_text_nonempty (now report : str) : digest_text now report <> [].
Proof. discriminate. Qed.

Lemma tg_outcome_failed (cs : list str) (msg : str) (d : trace) :
  tg_outcome h cs (Raise (Exception msg)) d -> forallb event_ok d = false.
Proof.
  intros (_ & _ & _ & Hw & _).
  destruct (forallb event_ok d); [| reflexivity].
  specialize (Hw eq_refl). discriminate.
Qed.

(** What an [except] block of [main] adds to what the history shows:
    either its log line could not be written, or the line is there and
    the notice was posted, at least its first chunk. *)
Lemma handled_shows (logmsg notice : str) (t : trace)
    (out : result unit * trace) :
  notice <> [] ->
  handled h logmsg notice t out ->
  exit_status (fst out) = 1%Z /\ fst out <> Ok tt
  /\ shells (snd out) = shells t /\ claude_calls (snd out) = claude_calls t
  /\ loads (snd out) = loads t /\ nows (snd out) = nows t
  /\ shell_failures (snd out) = shell_failures t
  /\ (forallb event_ok t = false -> forallb event_ok (snd out) = false)
  /\ (forallb append_ok t = false -> forallb append_ok (snd out) = false)
  /\ (forallb append_ok (snd out) = false
      \/ (Logged (snd out) logmsg
          /\ exists k,
               1 <= k <= length (chunks notice)
               /\ posts (snd out) = posts t ++ firstn k (chunks notice)
               /\ (fst out = Raise (SystemExit 1) ->
                   k = length (chunks notice)))).
Proof.
  intros Hne Hh. unfold handled in Hh.
  destruct (log_events_quiet h t logmsg) as (Ls & Lc & Ll & Ln).
  destruct (log_reply h t logmsg) as [[] | e] eqn:L.
  - destruct Hh as (rt & d & O & ->). cbn [fst snd].
    destruct O
      as ((k & Hk & Hp & Hall & Hone) & (Hs & Hc & Hl & Hn) & Hr & _ & _ & _
          & _ & Hsf).
    rewrite !shells_app, !claude_calls_app, !loads_app, !nows_app, !posts_app,
      !shell_failures_app.
    rewrite Hs, Hc, Hl, Hn, Ls, Lc, Ll, Ln, Hp, Hsf, log_events_posts,
      log_events_shell_failures, !app_nil_r.
    assert (Hk1 : 1 <= k) by (apply Hone, chunks_nonempty, Hne).
    assert (Hst : exit_status (after_notice rt) = 1%Z
                  /\ after_notice rt <> Ok tt
                  /\ (after_notice rt = Raise (SystemExit 1) -> rt = Ok tt)).
    { destruct Hr as [-> | [msg ->]]; cbn; repeat split; discriminate. }
    destruct Hst as (Hst1 & Hst2 & Hst3).
    split; [exact Hst1 |]. split; [exact Hst2 |].
    split; [reflexivity |]. split; [reflexivity |]. split; [reflexivity |].
    split; [reflexivity |]. split; [reflexivity |].
    split; [intro Ht; now rewrite !forallb_app, Ht |].
    split; [intro Ht; now rewrite !forallb_app, Ht |].
    right. split.
    + apply Logged_app_l, Logged_app_r, log_events_logged, L.
    + exists k. split; [lia |]. split; [reflexivity |]. auto.
  - subst out. cbn [fst snd].
    rewrite !shells_app, !claude_calls_app, !loads_app, !nows_app,
      !shell_failures_app.
    rewrite Ls, Lc, Ll, Ln, log_events_shell_failures, !app_nil_r.
    split; [reflexivity |]. split; [discriminate |].
    split; [reflexivity |]. split; [reflexivity |]. split; [reflexivity |].
    split; [reflexivity |]. split; [reflexivity |].
    split; [intro Ht; now rewrite !forallb_app, Ht |].
    split; [intro Ht; now rewrite !forallb_app, Ht |].
    left. rewrite forallb_app, (log_events_failed _ _ _ _ L).
    apply andb_false_r.
Qed.

(** An [except] block only logs and posts. *)
Lemma handled_quiet (logmsg notice : str) (t : trace)
    (out : result unit * trace) :
  handled h logmsg notice t out ->
  exists d, snd out = t ++ d /\ quiet d.
Proof.
  intro Hh. unfold handled in Hh.
  destruct (log_reply h t logmsg) as [[] | e].
  - destruct Hh as (rt & d & O & ->). cbn [snd].
    exists (log_events h t logmsg ++ d). rewrite app_assoc.
    split; [reflexivity |].
    apply quiet_app; [apply log_events_quiet | apply O].
  - subst out. cbn [snd]. exists (log_events h t logmsg).
    split; [reflexivity | apply log_events_quiet].
Qed.

(** What a whole run shows, one way or the other:
    - a log line of [main] itself could not be written;
    - the key did not load: nothing but the audit lines and the notice;
    - the key loaded, the clock was read, and a command could not
      complete: the commands up to that one, the audit lines and the
      notice;
    - the key loaded, the clock was read and the commands were run, and
      then the summarizer call raised, or the summarizer answered and
      the delivery raised part-way, or the digest went out whole. *)
Lemma main_shows :
  let out := main h [] in
  (forallb append_ok (snd out) = false
   /\ exit_status (fst out) = 1%Z /\ fst out <> Ok tt)
  \/ (exists rl msg k,
      key_load_fails rl msg
      /\ loads (snd out) = [rl] /\ nows (snd out) = []
      /\ shells (snd out) = [] /\ claude_calls (snd out) = []
      /\ exit_status (fst out) = 1%Z /\ fst out <> Ok tt
      /\ Logged (snd out) (u "ERROR loading API key: " ++ msg)
      /\ 1 <= k <= length (chunks (key_error_notice msg))
      /\ posts (snd out) = firstn k (chunks (key_error_notice msg))
      /\ (fst out = Raise (SystemExit 1) ->
          k = length (chunks (key_error_notice msg)))
      /\ forallb event_ok (snd out) = false
      /\ shell_failures (snd out) = [])
  \/ (exists rl api_key now msg n k,
         key_loads rl api_key
         /\ loads (snd out) = [rl] /\ nows (snd out) = [now]
         /\ n < 20 /\ shells (snd out) = firstn (S n) commands
         /\ shell_failures (snd out) = [msg]
         /\ claude_calls (snd out) = []
         /\ exit_status (fst out) = 1%Z /\ fst out <> Ok tt
         /\ Logged (snd out) (u "ERROR: " ++ msg)
         /\ 1 <= k <= length (chunks (script_error_notice msg))
         /\ posts (snd out) = firstn k (chunks (script_error_notice msg))
         /\ (fst out = Raise (SystemExit 1) ->
             k = length (chunks (script_error_notice msg)))
         /\ forallb event_ok (snd out) = false)
  \/ (exists rl api_key now p,
         key_loads rl api_key
         /\ loads (snd out) = [rl] /\ nows (snd out) = [now]
         /\ shells (snd out) = commands
         /\ shell_failures (snd out) = []
         /\ ((exists msg k,
                 claude_calls (snd out)
                 = [(claude_payload (build_prompt (snapshot p) now), Failed msg)]
                 /\ exit_status (fst out) = 1%Z /\ fst out <> Ok tt
                 /\ Logged (snd out) (u "ERROR: " ++ msg)
                 /\ 1 <= k <= length (chunks (script_error_notice msg))
                 /\ posts (snd out) = firstn k (chunks (script_error_notice msg))
                 /\ (fst out = Raise (SystemExit 1) ->
                     k = length (chunks (script_error_notice msg)))
                 /\ forallb event_ok (snd out) = false)
             \/ (exists report msg j k,
                    claude_calls (snd out)
                    = [(claude_payload (build_prompt (snapshot p) now),
                        Got report)]
                    /\ exit_status (fst out) = 1%Z /\ fst out <> Ok tt
                    /\ Logged (snd out) (u "ERROR: " ++ msg)
                    /\ 1 <= j <= length (chunks (digest_text now report))
                    /\ 1 <= k <= length (chunks (script_error_notice msg))
                    /\ posts (snd out)
                       = firstn j (chunks (digest_text now report))
                         ++ firstn k (chunks (script_error_notice msg))
                    /\ (fst out = Raise (SystemExit 1) ->
                        k = length (chunks (script_error_notice msg)))
                    /\ forallb event_ok (snd out) = false)
             \/ (exists report,
                    claude_calls (snd out)
                    = [(claude_payload (build_prompt (snapshot p) now),
                        Got report)]
                    /\ fst out = Ok tt
                    /\ posts (snd out) = chunks (digest_text now report)
                    /\ Logged (snd out) (u "digest sent OK")))).
Proof.
  cbv zeta. destruct (main_cases h)
    as [e0 L0
       | rl k now msg d out Hk Hd Hh
       | rl k now msg d out Hk Hd Hh
       | rl msg out Erl Hf Hh
       | rl k now p msg out Hk Hh
       | rl k now p report msg d out Hk t t' Ot Hh
       | rl k now p report d Hk t t' Ot L3].
  - (* the first log line could not be written *)
    left. cbn [fst snd]. split; [| split; [reflexivity | discriminate]].
    apply (log_events_failed _ _ _ _ L0).
  - (* a command could not complete *)
    destruct (handled_shows _ _ _ _ (script_error_notice_nonempty msg) Hh)
      as (H1 & H2 & H4 & H5 & H6 & H7 & H8 & H11 & _
          & [Hbad | (H3 & n & Hn & H9 & H10)]).
    { left. auto. }
    right. right. left.
    destruct (collect_failed_shows _ _ Hd)
      as (D1 & D2 & D3 & D4 & _ & D6 & D7 & _ & _ & (i & Hi & D8)).
    destruct (keyed_shows rl now) as (K1 & K2 & K3 & K4 & K5 & K6).
    rewrite shells_app, K1, D8 in H4. rewrite claude_calls_app, K3, D2 in H5.
    rewrite loads_app, K4, D3 in H6. rewrite nows_app, K5, D4 in H7.
    rewrite shell_failures_app, K6, D6 in H8.
    rewrite posts_app, K2, D1 in H9. cbn [app] in *.
    exists rl, k, now, msg, i, n.
    split; [exact Hk |]. split; [exact H6 |]. split; [exact H7 |].
    split; [exact Hi |]. split; [exact H4 |]. split; [exact H8 |].
    split; [exact H5 |]. split; [exact H1 |]. split; [exact H2 |].
    split; [exact H3 |]. split; [exact Hn |]. split; [exact H9 |].
    split; [exact H10 |].
    apply H11. rewrite forallb_app, D7. apply andb_false_r.
  - (* a log line of the second [try] could not be written *)
    destruct (handled_shows _ _ _ _ (script_error_notice_nonempty msg) Hh)
      as (H1 & H2 & _ & _ & _ & _ & _ & _ & Hap & _).
    left. split; [| auto]. apply Hap.
    rewrite forallb_app, Hd. apply andb_false_r.
  - (* the key did not load *)
    destruct (handled_shows _ _ _ _ (key_error_notice_nonempty msg) Hh)
      as (H1 & H2 & H4 & H5 & H6 & H7 & H8 & H11 & _
          & [Hbad | (H3 & n & Hn & H9 & H10)]).
    { left. auto. }
    right. left.
    destruct started_shows as (S1 & S2 & S3 & S4 & S5 & S6).
    rewrite shells_app, S1 in H4. rewrite claude_calls_app, S3 in H5.
    rewrite loads_app, S4 in H6. rewrite nows_app, S5 in H7.
    rewrite shell_failures_app, S6 in H8.
    rewrite posts_app, S2 in H9. cbn [app] in *.
    exists rl, msg, n.
    split; [exact Hf |]. split; [exact H6 |]. split; [exact H7 |].
    split; [exact H4 |]. split; [exact H5 |]. split; [exact H1 |].
    split; [exact H2 |]. split; [exact H3 |]. split; [exact Hn |].
    split; [exact H9 |]. split; [exact H10 |]. split; [| exact H8].
    apply H11. rewrite forallb_app. cbn [forallb event_ok].
    rewrite (key_load_fails_not_ok _ _ Hf). now rewrite andb_false_r.
  - (* the summarizer call raised *)
    destruct (handled_shows _ _ _ _ (script_error_notice_nonempty msg) Hh)
      as (H1 & H2 & H4 & H5 & H6 & H7 & H8 & H11 & _
          & [Hbad | (H3 & n & Hn & H9 & H10)]).
    { left. auto. }
    right. right. right. exists rl, k, now, p.
    destruct (asked_shows rl k now p (Failed msg))
      as (A1 & A2 & A3 & A4 & A5 & A6 & A7).
    rewrite A1 in H4. rewrite A3 in H5. rewrite A4 in H6. rewrite A5 in H7.
    rewrite A6 in H8. rewrite A2 in H9. cbn [app] in H9.
    split; [exact Hk |]. split; [exact H6 |]. split; [exact H7 |].
    split; [exact H4 |]. split; [exact H8 |].
    left. exists msg, n.
    split; [exact H5 |]. split; [exact H1 |]. split; [exact H2 |].
    split; [exact H3 |]. split; [exact Hn |]. split; [exact H9 |].
    split; [exact H10 |]. exact (H11 (A7 msg eq_refl)).
  - (* the delivery raised *)
    destruct (handled_shows _ _ _ _ (script_error_notice_nonempty msg) Hh)
      as (H1 & H2 & H4 & H5 & H6 & H7 & H8 & H11 & _
          & [Hbad | (H3 & n & Hn & H9 & H10)]).
    { left. auto. }
    right. right. right. exists rl, k, now, p.
    destruct (asked_shows rl k now p (Got report))
      as (A1 & A2 & A3 & A4 & A5 & A6 & _).
    pose proof (tg_outcome_failed _ _ _ Ot) as Hd.
    destruct Ot as ((j & Hj & Hp & _ & Hone) & (Qs & Qc & Ql & Qn) & _ & _ & _
                    & _ & _ & Qf).
    destruct (log_events_quiet h (asked h rl k now p (Got report))
                (u "response received, sending to Telegram"))
      as (Ls & Lc & Ll & Ln).
    unfold t' in H4, H5, H6, H7, H8, H9, H11.
    unfold t in H4, H5, H6, H7, H8, H9, H11.
    rewrite !shells_app, A1, Ls, Qs, !app_nil_r in H4.
    rewrite !claude_calls_app, A3, Lc, Qc in H5. cbn [app] in H5.
    rewrite !loads_app, A4, Ll, Ql in H6. cbn [app] in H6.
    rewrite !nows_app, A5, Ln, Qn in H7. cbn [app] in H7.
    rewrite !shell_failures_app, A6, log_events_shell_failures, Qf in H8.
    cbn [app] in H8.
    rewrite !posts_app, A2, log_events_posts, Hp in H9. cbn [app] in H9.
    split; [exact Hk |]. split; [exact H6 |]. split; [exact H7 |].
    split; [exact H4 |]. split; [exact H8 |].
    right. left. exists report, msg, j, n.
    specialize (Hone (chunks_nonempty _ (digest_text_nonempty now report))).
    split; [exact H5 |]. split; [exact H1 |]. split; [exact H2 |].
    split; [exact H3 |]. split; [lia |]. split; [exact Hn |].
    split; [exact H9 |]. split; [exact H10 |].
    apply H11. rewrite !forallb_app, Hd. now rewrite andb_false_r.
  - (* the digest went out *)
    right. right. right. exists rl, k, now, p.
    destruct (asked_shows rl k now p (Got report))
      as (A1 & A2 & A3 & A4 & A5 & A6 & _).
    destruct Ot as ((j & Hj & Hp & Hall & _) & (Qs & Qc & Ql & Qn) & _ & _ & _
                    & _ & _ & Qf).
    destruct (log_events_quiet h (asked h rl k now p (Got report))
                (u "response received, sending to Telegram"))
      as (Ls & Lc & Ll & Ln).
    cbn [fst snd]. unfold t' in *. unfold t in *.
    match goal with
    | |- context [log_events h ?x (u "digest sent OK")] =>
        destruct (log_events_quiet h x (u "digest sent OK"))
          as (Ls' & Lc' & Ll' & Ln')
    end.
    rewrite !shells_app, !claude_calls_app, !loads_app, !nows_app, !posts_app,
      !shell_failures_app.
    rewrite A1, A2, A3, A4, A5, A6, Ls, Lc, Ll, Ln, Ls', Lc', Ll', Ln', Qs, Qc,
      Ql, Qn, Qf, !log_events_posts, !log_events_shell_failures, Hp,
      (Hall eq_refl), firstn_all, !app_nil_r.
    cbn [app].
    split; [exact Hk |]. split; [reflexivity |]. split; [reflexivity |].
    split; [reflexivity |]. split; [reflexivity |].
    right. right. exists report.
    split; [reflexivity |]. split; [reflexivity |]. split; [reflexivity |].
    apply Logged_app_r, log_events_logged, L3.
Qed.

End Histories.

(** * The snapshot *)

Example strip_trims_both_ends :
  strip (tab ++ u "  up 3 days " ++ nl) = u "up 3 days".
Proof. reflexivity. Qed.

Example strip_of_blanks : strip (u "  " ++ nl ++ nl) = [].
Proof. reflexivity. Qed.

Example dict_set_keeps_place :
  dict_set (u "a") (u "3") [(u "a", u "1"); (u "b", u "2")]
  = [(u "a", u "3"); (u "b", u "2")].
Proof. reflexivity. Qed.

Example collect_on_blank_output :
  let d := fst (collect Fixture.whitespace_only []) in
  d = Ok (snapshot (Build_probes
            Fixture.blank Fixture.blank Fixture.blank Fixture.blank
            Fixture.blank Fixture.blank Fixture.blank Fixture.blank
            Fixture.blank Fixture.blank Fixture.blank Fixture.blank
            Fixture.blank Fixture.blank Fixture.blank Fixture.blank
            Fixture.blank Fixture.blank Fixture.blank Fixture.blank))
  /\ assoc (u "openclaw_logs")
       (match d with Ok x => x | Raise _ => [] end) = Some (u "(no logs)")
  /\ assoc (u "system_resources")
       (match d with Ok x => x | Raise _ => [] end)
     = Some (u "Memory: " ++ nl ++ u "Swap:   " ++ nl ++ u "Disk:   " ++ nl
             ++ u "Load:   " ++ nl ++ u "Uptime: ").
Proof. vm_compute. repeat split. Qed.

Lemma section_keys_NoDup : NoDup section_keys.
Proof.
  unfold section_keys.
  repeat (constructor; [cbn [In]; vm_compute; intuition discriminate |]).
  constructor.
Qed.

(** C1, as stated, fails: [subprocess.run(..., text=True)] raises when
    what a command printed does not decode as text, and [collect]
    catches nothing.  Here the third command, the one that reads the
    logs of the gateway, meets a byte that is not UTF-8: [collect] has
    run three commands and raises the [UnicodeDecodeError]; it returns
    no snapshot, so not one with the nine keys. *)
Lemma collect_raises_on_undecodable_output :
  fst (collect Fixture.garbled_logs [])
  = Raise (Exception Fixture.undecodable)
  /\ shells (snd (collect Fixture.garbled_logs []))
     = [cmd_docker_containers; cmd_docker_stats; cmd_openclaw_logs]
  /\ ~ (forall (h : host) (t : trace),
          exists d, fst (collect h t) = Ok d /\ keys d = section_keys).
Proof.
  assert (E : fst (collect Fixture.garbled_logs [])
              = Raise (Exception Fixture.undecodable))
    by (vm_compute; reflexivity).
  split; [exact E |]. split; [vm_compute; reflexivity |].
  intro H. destruct (H Fixture.garbled_logs []) as (d & Hd & _).
  rewrite E in Hd. discriminate.
Qed.

(** C1, amended.  Whenever [collect] returns, whatever the commands
    exited with or printed, the dict it returns has exactly the nine
    section keys docker_containers, docker_stats, openclaw_logs,
    system_resources, established_connections, network_security,
    system_errors, monitor_log, backup_log, in that order, each once;
    and it does return when every command completes.  It raises when a
    command cannot complete, with the exception of that command, having
    run the commands up to that one. *)
Theorem collect_section_keys (h : host) (t : trace) :
  match fst (collect h t) with
  | Ok d =>
      keys d = section_keys
      /\ length (keys d) = 9
      /\ NoDup (keys d)
      /\ keys d
         = [u "docker_containers"; u "docker_stats"; u "openclaw_logs";
            u "system_resources"; u "established_connections";
            u "network_security"; u "system_errors"; u "monitor_log";
            u "backup_log"]
      /\ shells (snd (collect h t)) = shells t ++ commands
      /\ shell_failures (snd (collect h t)) = shell_failures t
  | Raise e =>
      exists msg n,
        e = Exception msg
        /\ n < 20
        /\ shells (snd (collect h t)) = shells t ++ firstn (S n) commands
        /\ shell_failures (snd (collect h t)) = shell_failures t ++ [msg]
  end
  /\ ((forall t' cmd, exists r, shell h t' cmd = Got r) ->
      exists d, fst (collect h t) = Ok d).
Proof.
  split.
  - destruct (collect_run h t) as [[p E] | (msg & d & E & Hd)]; rewrite E;
      cbn [fst snd].
    + change (keys (snapshot p)) with section_keys.
      rewrite shells_app, shell_failures_app.
      change (shell_failures (probe_events p)) with (@nil str).
      rewrite app_nil_r.
      repeat split. apply section_keys_NoDup.
    + destruct (collect_failed_shows _ _ Hd)
        as (_ & _ & _ & _ & _ & D6 & _ & _ & _ & (n & Hn & D8)).
      exists msg, n. rewrite shells_app, shell_failures_app, D6, D8.
      repeat split. exact Hn.
  - intro Hall. destruct (collect_returns h t Hall) as [p E].
    exists (snapshot p). now rewrite E.
Qed.

(** The same where every command prints only blanks. *)
Lemma collect_section_keys_witness :
  exists d, fst (collect Fixture.whitespace_only []) = Ok d.
Proof.
  apply (proj2 (collect_section_keys Fixture.whitespace_only [])).
  intros t' cmd. exists Fixture.blank. reflexivity.
Defined.

(** C2, as stated, fails: with every command printing only blanks, the
    docker_containers section holds the empty text, which is none of the
    fallback texts. *)
Lemma whitespace_probe_without_fallback :
  ~ (forall (h : host) (t : trace) (key : str),
       In key section_keys ->
       (forall t' cmd, exists r, shell h t' cmd = Got r /\ output r = []) ->
       exists d fb,
         fst (collect h t) = Ok d /\ In fb fallbacks /\ assoc key d = Some fb).
Proof.
  intro H.
  destruct (H Fixture.whitespace_only [] (u "docker_containers"))
    as (d & fb & E & Hfb & Hd).
  - cbn [In section_keys]. now left.
  - intros t' cmd. exists Fixture.blank. split; reflexivity.
  - vm_compute in E. injection E as <-.
    vm_compute in Hd. injection Hd as <-.
    vm_compute in Hfb. intuition discriminate.
Qed.

(** C2, amended.  When [collect] returns, its commands have completed as
    some [p], and: each of docker_stats, openclaw_logs,
    established_connections, system_errors, monitor_log and backup_log
    holds the trimmed output of its command, or its own fallback text
    when that output is empty; the top-IPs, fail2ban status and fail2ban
    events parts of network_security likewise; docker_containers and the
    other parts of the two composed sections hold the trimmed output as
    it is, empty or not.  (When a command cannot complete there is no
    snapshot: [collect] raises.) *)
Theorem collect_fallbacks (h : host) (t : trace) :
  match fst (collect h t) with
  | Ok d =>
      exists p,
        collect h t = (Ok d, t ++ probe_events p)
        /\ Forall (fun '(key, r, fb) => assoc key d = Some (py_or (output r) fb))
             [(u "docker_stats", p_docker_stats p, u "(no containers running)");
              (u "openclaw_logs", p_openclaw_logs p, u "(no logs)");
              (u "established_connections", p_established_connections p,
               u "(none)");
              (u "system_errors", p_system_errors p, u "(none)");
              (u "monitor_log", p_monitor_log p, u "(empty)");
              (u "backup_log", p_backup_log p, u "(empty)")]
        /\ (forall fb, py_or [] fb = fb)
        /\ assoc (u "docker_containers") d
           = Some (output (p_docker_containers p))
        /\ assoc (u "system_resources") d
           = Some (system_resources_text (output (p_memory p))
                     (output (p_swap p)) (output (p_disk p))
                     (output (p_load p)) (output (p_uptime p)))
        /\ assoc (u "network_security") d
           = Some (network_security_text
                     (output (p_tcp_total p)) (output (p_tcp_estab p))
                     (output (p_tcp_timewait p)) (output (p_tcp_synrecv p))
                     (py_or (output (p_top_ips p)) (u "(none)"))
                     (output (p_ssh_fails p))
                     (py_or (output (p_fail2ban p))
                        (u "(fail2ban not available)"))
                     (py_or (output (p_fail2ban_log p)) (u "(no events)")))
  | Raise e =>
      exists msg, e = Exception msg /\ In msg (shell_failures (snd (collect h t)))
  end.
Proof.
  destruct (collect_run h t) as [[p E] | (msg & d & E & Hd)]; rewrite E;
    cbn [fst snd].
  - exists p. split; [reflexivity |].
    split; [repeat constructor |].
    repeat split.
  - exists msg. split; [reflexivity |].
    destruct (collect_failed_shows _ _ Hd) as (_ & _ & _ & _ & _ & D6 & _).
    rewrite shell_failures_app, D6. apply in_or_app. right. now left.
Qed.

(** * The prompt *)

Lemma join_snoc (sep : str) (parts : list str) (x : str) :
  parts <> [] -> join sep (parts ++ [x]) = join sep parts ++ sep ++ x.
Proof.
  induction parts as [| p rest IH]; [congruence |]. intros _.
  destruct rest as [| q rest'].
  - reflexivity.
  - change (join sep ((p :: q :: rest') ++ [x]))
      with (p ++ sep ++ join sep ((q :: rest') ++ [x])).
    rewrite IH by discriminate.
    change (join sep (p :: q :: rest')) with (p ++ sep ++ join sep (q :: rest')).
    now rewrite <- !app_assoc.
Qed.

Lemma join_section_lines (lines : list str) (item : str * str) :
  lines <> [] ->
  join nl (lines ++ section_lines item) = join nl lines ++ section_block item.
Proof.
  intro Hne. unfold section_lines, section_block.
  change (lines ++ [u "=== " ++ fst item ++ u " ==="; snd item; []])
    with (lines ++ [u "=== " ++ fst item ++ u " ==="] ++ [snd item] ++ [[]]).
  rewrite !app_assoc.
  rewrite join_snoc, join_snoc, join_snoc; auto;
    try (intro H; apply app_eq_nil in H; destruct H; discriminate).
  rewrite app_nil_r. now rewrite <- !app_assoc.
Qed.

Lemma add_sections_join (items : dict) (lines : list str) :
  lines <> [] ->
  join nl (add_sections lines items)
  = join nl lines ++ concat (map section_block items).
Proof.
  revert lines. induction items as [| item items IH]; intros lines Hne.
  - cbn [add_sections map concat]. now rewrite app_nil_r.
  - cbn [add_sections map concat]. rewrite IH.
    + rewrite join_section_lines by exact Hne. now rewrite <- app_assoc.
    + intro H. apply app_eq_nil in H. destruct H. contradiction.
Qed.

Lemma build_prompt_eq (sections : dict) (now : str) :
  build_prompt sections now
  = join nl (preamble now) ++ concat (map section_block sections).
Proof.
  unfold build_prompt. apply add_sections_join. discriminate.
Qed.

Example build_prompt_of_one_section :
  build_prompt [(u "monitor_log", u "(empty)")] (u "2026-11-03 15:00")
  = build_prompt [] (u "2026-11-03 15:00")
    ++ nl ++ u "=== monitor_log ===" ++ nl ++ u "(empty)" ++ nl.
Proof. vm_compute. reflexivity. Qed.

Example build_prompt_starts :
  firstn 3 (preamble (u "2026-11-03 15:00"))
  = [u "You are monitoring server 'openclaw-tg-bot' (OpenClaw AI agent + Telegram bot).";
     u "Report time: 2026-11-03 15:00 UTC";
     []].
Proof. vm_compute. reflexivity. Qed.

(** C3.  [build_prompt] is a function of its two arguments alone, and a
    section's text shows in the output only inside the block of that
    section: with the sections before, the title and the sections after
    kept, the output is the same text before and the same text after,
    around the content given. *)
Theorem build_prompt_pure_and_local :
  (forall sections sections' now now',
      sections = sections' -> now = now' ->
      build_prompt sections now = build_prompt sections' now')
  /\ (forall (pre post : dict) (title content content' now : str),
        let before := build_prompt pre now
                      ++ nl ++ u "=== " ++ title ++ u " ===" ++ nl in
        let after := nl ++ concat (map section_block post) in
        build_prompt (pre ++ (title, content) :: post) now
        = before ++ content ++ after
        /\ build_prompt (pre ++ (title, content') :: post) now
           = before ++ content' ++ after).
Proof.
  split.
  - intros ? ? ? ? -> ->. reflexivity.
  - intros pre post title content content' now. cbv zeta.
    rewrite !build_prompt_eq, !map_app, !concat_app.
    cbn [map concat]. unfold section_block. cbn [fst snd].
    split; now rewrite <- !app_assoc.
Qed.

(** The same two runs of [build_prompt] at a concrete snapshot. *)
Lemma build_prompt_pure_and_local_witness :
  build_prompt [(u "monitor_log", u "(empty)")] (u "2026-11-03 15:00")
  = build_prompt [(u "monitor_log", u "(empty)")] (u "2026-11-03 15:00").
Proof.
  apply (proj1 build_prompt_pure_and_local); reflexivity.
Defined.

(** C4.  The output of [build_prompt] is the preamble followed, for each
    section in the order of the snapshot, by a line [=== name ===], the
    content of the section right after it, and an empty line; for a
    snapshot that [collect] returns these are the nine sections in their
    fixed order. *)
Theorem build_prompt_sections :
  (forall (sections : dict) (now : str),
      build_prompt sections now
      = join nl (preamble now)
        ++ concat (map (fun item => nl ++ u "=== " ++ fst item ++ u " ==="
                                    ++ nl ++ snd item ++ nl) sections))
  /\ (forall (h : host) (t : trace) (now : str),
        match fst (collect h t) with
        | Ok d =>
            exists contents,
              length contents = 9
              /\ d = combine section_keys contents
              /\ build_prompt (combine section_keys contents) now
                 = join nl (preamble now)
                   ++ concat (map section_block
                                (combine section_keys contents))
        | Raise e => exists msg, e = Exception msg
        end).
Proof.
  split.
  - intros. apply build_prompt_eq.
  - intros h t now.
    destruct (collect_run h t) as [[p E] | (msg & d & E & _)]; rewrite E;
      cbn [fst].
    + exists (map snd (snapshot p)).
      split; [reflexivity |]. split; [reflexivity | apply build_prompt_eq].
    + now exists msg.
Qed.

(** * Delivery *)

Example chunks_small :
  chunks_by 4 (u "0123456789") = [u "0123"; u "4567"; u "89"].
Proof. reflexivity. Qed.

Example chunks_exact : chunks_by 5 (u "0123456789") = [u "01234"; u "56789"].
Proof. reflexivity. Qed.

Example chunks_empty : chunks [] = [].
Proof. reflexivity. Qed.

(** C5.  [tg] splits a text of length L into ceil(L/4000) chunks of at
    most 4000 characters each, whose concatenation is the text, and posts
    them in that order, one request each: what it has posted is always
    the first [k] chunks of the list.  It returns exactly when every
    request was answered with a JSON dict and every log line it had to
    write was written, and then it has posted the whole list.  When it
    raises it has posted at least one chunk: all went well up to the
    last request, and what failed is that request or the log line for
    its reply.  So on a channel that answers every request with a dict,
    the log file writable, every chunk is sent. *)
Theorem tg_chunking (h : host) (text : str) (t : trace) :
  length (chunks text) = ceil_div (length text) 4000
  /\ Forall (fun c => length c <= 4000) (chunks text)
  /\ concat (chunks text) = text
  /\ (exists r d k,
         tg h text t = (r, t ++ d)
         /\ posts d = firstn k (chunks text)
         /\ match r with
            | Ok _ =>
                k = length (chunks text)
                /\ posts d = chunks text /\ concat (posts d) = text
                /\ forallb event_ok d = true
            | Raise _ =>
                1 <= k <= length (chunks text)
                /\ exists d1 d2,
                     d = d1 ++ d2 /\ forallb event_ok d1 = true
                     /\ length (posts d2) = 1 /\ forallb event_ok d2 = false
            end
         /\ (forallb event_ok d = true -> r = Ok tt))
  /\ ((forall t' form, exists m, post_form h t' (tg_url h) form = Got (JObj m)) ->
      (forall t' path data, append_to h t' path data = Got tt) ->
      exists d, tg h text t = (Ok tt, t ++ d) /\ posts d = chunks text).
Proof.
  assert (Hpos : 0 < chunk_size) by (unfold chunk_size; lia).
  split; [apply (chunks_by_length chunk_size Hpos) |].
  split; [apply (chunks_by_bound chunk_size Hpos) |].
  split; [apply (chunks_by_concat chunk_size Hpos) |].
  destruct (tg_run h text t)
    as (r & d & E & ((k & Hk & Hp & Hall & _) & _ & _ & Hw & _ & Hc & Hf & _)
        & Hok).
  split.
  - exists r, d, k. split; [exact E |]. split; [exact Hp |].
    split; [| exact Hw].
    destruct r as [[] | e].
    + split; [exact (Hall eq_refl) |].
      rewrite Hp, (Hall eq_refl), firstn_all.
      split; [reflexivity |].
      split; [apply (chunks_by_concat chunk_size Hpos) | exact (Hc eq_refl)].
    + destruct (Hf ltac:(discriminate)) as (d1 & d2 & Ed & H1 & H2 & H3).
      split; [| now exists d1, d2].
      split; [| exact Hk].
      apply (f_equal (@length str)) in Hp.
      rewrite Ed, posts_app, length_app, H2, length_firstn in Hp. lia.
  - intros Hdict Happ. specialize (Hok Hdict Happ). subst r. exists d.
    split; [exact E |]. now rewrite Hp, (Hall eq_refl), firstn_all.
Qed.

(** The delivery channel rejecting every one of three chunks: all three
    are sent. *)
Lemma tg_chunking_witness :
  exists d,
    tg Fixture.all_rejected Fixture.text_8500 [] = (Ok tt, [] ++ d)
    /\ posts d = chunks Fixture.text_8500.
Proof.
  apply (proj2 (proj2 (proj2 (proj2
           (tg_chunking Fixture.all_rejected Fixture.text_8500 []))))).
  - intros t' form. eexists. reflexivity.
  - intros t' path data. reflexivity.
Defined.


(** * The run *)

Lemma In_singleton {A : Type} (x y : A) : In x [y] -> x = y.
Proof. intros [H | []]. now symmetry. Qed.

(** The ways of [main_shows], under fixed names. *)
Ltac run_shows h :=
  destruct (main_shows h)
    as [(Hbad & Hx & Hne)
       | [(rl0 & msg0 & k & Hf0 & Hl & Hn & Hs & Hc & Hx & Hne & Hlog & Hk
           & Hp & Hall & Hev & Hsf)
         | [(rl0 & key & now & msg0 & n & k & Hk0 & Hl & Hn & Hn20 & Hs & Hsf
             & Hc & Hx & Hne & Hlog & Hk & Hp & Hall & Hev)
           | (rl0 & key & now & p & Hk0 & Hl & Hn & Hs & Hsf &
              [(msg0 & k & Hc & Hx & Hne & Hlog & Hk & Hp & Hall & Hev)
              | [(report0 & msg0 & j & k & Hc & Hx & Hne & Hlog & Hj & Hk
                  & Hp & Hall & Hev)
                | (report0 & Hc & Hr & Hp & Hlog)]])]]].



Example empty_key_run :
  let out := main Fixture.empty_key [] in
  fst out = Raise (SystemExit 1)
  /\ shells (snd out) = []
  /\ posts (snd out)
     = [u "🔴 <b>digest error</b>: primaryApiKey not found in ~/.claude.json"].
Proof. vm_compute. repeat split. Qed.

Example log_unwritable_run :
  let out := main Fixture.log_unwritable [] in
  fst out
  = Raise (Exception (u "[Errno 13] Permission denied: '/root/.openclaw/logs/digest.log'"))
  /\ exit_status (fst out) = 1%Z
  /\ length (printed (snd out)) = 1
  /\ loads (snd out) = [] /\ posts (snd out) = [].
Proof. vm_compute. repeat split. Qed.

Example garbled_logs_run :
  let out := main Fixture.garbled_logs [] in
  fst out = Raise (SystemExit 1)
  /\ length (shells (snd out)) = 3
  /\ claude_calls (snd out) = []
  /\ posts (snd out) = [script_error_notice Fixture.undecodable].
Proof. vm_compute. repeat split. Qed.




(** C10.  When the summarizer has answered with [report] and the log
    file can be written, what [main] hands to [tg] is never the report
    alone but the header, the run timestamp, [" UTC"], two newlines and
    then the report; the chunks are cut from that text, so the first
    request carries its first 4000 characters, and when [main] returns
    the requests made are exactly its chunks. *)
Theorem digest_is_prefixed (h : host) (body : json) (report : str) :
  let out := main h [] in
  forallb append_ok (snd out) = true ->
  In (body, Got report) (claude_calls (snd out)) ->
  exists now j rest,
    let text := u "📊 <b>Hourly digest</b> — " ++ now ++ u " UTC" ++ nl ++ nl
                ++ report in
    nows (snd out) = [now]
    /\ 1 <= j
    /\ posts (snd out) = firstn j (chunks text) ++ rest
    /\ chunks text = firstn 4000 text :: chunks (skipn 4000 text)
    /\ (fst out = Ok tt -> posts (snd out) = chunks text).
Proof.
  cbv zeta. intros Happ Hin.
  assert (Hcons : forall now,
             chunks (digest_text now report)
             = firstn 4000 (digest_text now report)
               :: chunks (skipn 4000 (digest_text now report))).
  { intro now. apply chunks_by_cons; [unfold chunk_size; lia |].
    apply digest_text_nonempty. }
  run_shows h; [congruence | ..];
    rewrite Hc in Hin; try contradiction; apply In_singleton in Hin;
    try discriminate; injection Hin as _ <-.
  - exists now, j, (firstn k (chunks (script_error_notice msg0))).
    repeat split; auto; try lia.
    + apply Hcons.
    + intro Hr'. contradiction.
  - exists now, (length (chunks (digest_text now report))), [].
    rewrite firstn_all, app_nil_r.
    repeat split; auto.
    + rewrite Hcons. cbn [length]. lia.
    + apply Hcons.
Qed.

(** The run where everything answers. *)
Lemma digest_is_prefixed_witness :
  let out := main (Fixture.all_well (u "<b>STATUS</b>  OK")) [] in
  exists now j rest,
    let text := u "📊 <b>Hourly digest</b> — " ++ now ++ u " UTC" ++ nl ++ nl
                ++ u "<b>STATUS</b>  OK" in
    nows (snd out) = [now]
    /\ 1 <= j
    /\ posts (snd out) = firstn j (chunks text) ++ rest
    /\ chunks text = firstn 4000 text :: chunks (skipn 4000 text)
    /\ (fst out = Ok tt -> posts (snd out) = chunks text).
Proof.
  eapply (digest_is_prefixed (Fixture.all_well (u "<b>STATUS</b>  OK"))).
  - vm_compute. reflexivity.
  - vm_compute. left. reflexivity.
Defined.

Example all_well_run :
  let out := main (Fixture.all_well (u "<b>STATUS</b>  OK")) [] in
  fst out = Ok tt
  /\ posts (snd out)
     = [u "📊 <b>Hourly digest</b> — 2026-11-03 15:00 UTC" ++ nl ++ nl
        ++ u "<b>STATUS</b>  OK"]
  /\ length (shells (snd out)) = 20.
Proof. vm_compute. repeat split. Qed.

(** C6, as stated, fails: with a report of exactly 9000 characters and
    every request accepted, the three requests carry 4000, 4000 and 1047
    characters, not 4000, 4000 and 1000. *)
Lemma header_lengthens_the_9000_char_report :
  let out := main (Fixture.all_well Fixture.report_9000) [] in
  len Fixture.report_9000 = 9000%Z
  /\ fst out = Ok tt
  /\ map len (posts (snd out)) = [4000; 4000; 1047]%Z
  /\ map len (posts (snd out)) <> [4000; 4000; 1000]%Z.
Proof.
  cbv zeta.
  assert (E : map len (posts (snd (main (Fixture.all_well Fixture.report_9000) [])))
              = [4000; 4000; 1047]%Z) by (vm_compute; reflexivity).
  split; [vm_compute; reflexivity |].
  split; [vm_compute; reflexivity |].
  split; [exact E |]. rewrite E. discriminate.
Qed.

(** C6, amended.  A text of exactly 9000 characters handed to [tg] is
    cut into chunks of 4000, 4000 and 1000 characters; but the text
    [main] hands over for a report of 9000 characters is the header, the
    run timestamp and the report: with the 16-character timestamp it has
    9047 characters, and when [main] returns the requests made carry
    4000, 4000 and 1047 characters, in that order. *)
Theorem report_of_9000_chars (h : host) (body : json) (report : str) :
  let out := main h [] in
  fst out = Ok tt ->
  In (body, Got report) (claude_calls (snd out)) ->
  len report = 9000%Z ->
  Forall (fun now => len now = 16%Z) (nows (snd out)) ->
  map len (chunks report) = [4000; 4000; 1000]%Z
  /\ map len (posts (snd out)) = [4000; 4000; 1047]%Z.
Proof.
  cbv zeta. intros Hok Hin Hlen Hnow.
  assert (Hsz : forall (text : str) (a : nat),
             0 < a <= 4000 -> length text = 4000 + 4000 + a ->
             map len (chunks text) = [4000%Z; 4000%Z; Z.of_nat a]).
  { intros text a Ha Ht. unfold chunks, len.
    rewrite <- (map_map (@length char) Z.of_nat).
    rewrite (chunks_by_sizes3 chunk_size a text);
      [reflexivity | unfold chunk_size; lia ..]. }
  split.
  - apply (Hsz report 1000); unfold len in Hlen; lia.
  - run_shows h; try contradiction.
    rewrite Hc in Hin. apply In_singleton in Hin. injection Hin as _ <-.
    rewrite Hn in Hnow. apply Forall_inv in Hnow.
    rewrite Hp. apply (Hsz _ 1047); [lia |].
    unfold digest_text. rewrite !length_app.
    change (length (u "📊 <b>Hourly digest</b> — ")) with 25.
    change (length (u " UTC")) with 4. change (length nl) with 1.
    unfold len in Hlen, Hnow. lia.
Qed.

(** The same at the scripted host of the counterexample. *)
Lemma report_of_9000_chars_witness :
  let out := main (Fixture.all_well Fixture.report_9000) [] in
  map len (chunks Fixture.report_9000) = [4000; 4000; 1000]%Z
  /\ map len (posts (snd out)) = [4000; 4000; 1047]%Z.
Proof.
  eapply (report_of_9000_chars (Fixture.all_well Fixture.report_9000)).
  - vm_compute. reflexivity.
  - vm_compute. left. reflexivity.
  - vm_compute. reflexivity.
  - vm_compute. repeat constructor.
Defined.


Example all_rejected_run :
  let out := tg Fixture.all_rejected Fixture.text_8500 [] in
  fst out = Ok tt
  /\ map len (posts (snd out)) = [4000; 4000; 500]%Z
  /\ rejections (snd out)
     = [Fixture.rejected; Fixture.rejected; Fixture.rejected]
  /\ length (appended (snd out)) = 3.
Proof. vm_compute. repeat split. Qed.
(** * More on the probes *)

Lemma lstrip_head (s : str) :
  match lstrip s with
  | [] => True
  | c :: _ => is_space c = false
  end.
Proof.
  induction s as [| c s IH]; cbn [lstrip]; [exact I |].
  destruct (is_space c) eqn:E; [exact IH | exact E].
Qed.

Lemma lstrip_suffix (s : str) : exists pre, s = pre ++ lstrip s.
Proof.
  induction s as [| c s [pre IH]]; [now exists [] |]. cbn [lstrip].
  destruct (is_space c).
  - exists (c :: pre). cbn [app]. now rewrite <- IH.
  - now exists [].
Qed.

Lemma lstrip_fixed (s : str) :
  match s with
  | [] => True
  | c :: _ => is_space c = false
  end ->
  lstrip s = s.
Proof.
  destruct s as [| c s]; [reflexivity |]. cbn [lstrip]. now intros ->.
Qed.

Lemma lstrip_nil_iff (s : str) : lstrip s = [] <-> forallb is_space s = true.
Proof.
  induction s as [| c s IH]; cbn [lstrip forallb]; [tauto |].
  destruct (is_space c); cbn [andb]; [exact IH |].
  split; discriminate.
Qed.

Lemma forallb_rev {A : Type} (f : A -> bool) (l : list A) :
  forallb f (rev l) = forallb f l.
Proof.
  induction l as [| x l IH]; [reflexivity |]. cbn [rev forallb].
  rewrite forallb_app, IH. cbn [forallb]. rewrite andb_true_r.
  apply andb_comm.
Qed.

Lemma rev_nil_iff {A : Type} (l : list A) : rev l = [] <-> l = [].
Proof.
  split; [| now intros ->]. intro H. apply (f_equal (@rev A)) in H.
  now rewrite rev_involutive in H.
Qed.

Lemma strip_trimmed (s : str) : trimmed (strip s).
Proof.
  unfold trimmed, strip, rstrip. split.
  - destruct (lstrip_suffix (rev (lstrip s))) as [pre E].
    apply (f_equal (@rev char)) in E.
    rewrite rev_involutive, rev_app_distr in E.
    pose proof (lstrip_head s) as Hh. rewrite E in Hh.
    destruct (rev (lstrip (rev (lstrip s)))); [exact I | exact Hh].
  - rewrite rev_involutive. apply lstrip_head.
Qed.

Lemma strip_fixed (s : str) : trimmed s -> strip s = s.
Proof.
  intros [Hh Hl]. unfold strip, rstrip.
  rewrite (lstrip_fixed s Hh), (lstrip_fixed (rev s) Hl).
  apply rev_involutive.
Qed.

Lemma strip_nil_iff (s : str) : strip s = [] <-> forallb is_space s = true.
Proof.
  unfold strip, rstrip. split.
  - intro H. apply rev_nil_iff, lstrip_nil_iff in H.
    rewrite forallb_rev in H. apply lstrip_nil_iff.
    pose proof (lstrip_head s) as Hh.
    destruct (lstrip s) as [| c r]; [reflexivity |].
    cbn [forallb] in H. rewrite Hh in H. discriminate.
  - intro H. apply lstrip_nil_iff in H. now rewrite H.
Qed.

(** X1.  [run] runs its command once.  When the command completes,
    whatever its exit status, [run] returns, and the text it returns is
    trimmed: neither its first nor its last character is whitespace, and
    stripping it again changes nothing.  When [subprocess.run] itself
    raises (the shell cannot be started, what the command printed does
    not decode as text), [run] raises that exception. *)
Theorem run_output_trimmed (h : host) (cmd : str) (t : trace) :
  snd (run h cmd t) = t ++ [EvShell cmd (shell h t cmd)]
  /\ match shell h t cmd with
     | Got r =>
         exists s,
           fst (run h cmd t) = Ok s
           /\ s = strip (stdout r ++ stderr r)
           /\ trimmed s
           /\ strip s = s
     | Failed msg => fst (run h cmd t) = Raise (Exception msg)
     end.
Proof.
  rewrite run_run. cbn [fst snd]. split; [reflexivity |].
  destruct (shell h t cmd) as [r | msg]; [| reflexivity].
  exists (output r). split; [reflexivity |]. split; [reflexivity |].
  split; [apply strip_trimmed | apply strip_fixed, strip_trimmed].
Qed.

(** X2.  For a command that completes, what [run] returns is empty
    exactly when the standard output and error of the command, put
    together, hold nothing but whitespace (or nothing at all), whatever
    the exit status: this is when the [or] of [collect] takes the
    fallback text. *)
Theorem run_empty_iff_blank (h : host) (cmd fb : str) (t : trace) :
  match shell h t cmd with
  | Got r =>
      let raw := stdout r ++ stderr r in
      fst (run h cmd t) = Ok (strip raw)
      /\ (strip raw = [] <-> forallb is_space raw = true)
      /\ py_or (strip raw) fb = if forallb is_space raw then fb else strip raw
  | Failed msg => fst (run h cmd t) = Raise (Exception msg)
  end.
Proof.
  rewrite run_run. cbn [fst].
  destruct (shell h t cmd) as [r | msg]; [| reflexivity].
  cbv zeta. unfold output.
  split; [reflexivity |]. split; [apply strip_nil_iff |].
  destruct (forallb is_space (stdout r ++ stderr r)) eqn:E.
  - apply strip_nil_iff in E. now rewrite E.
  - destruct (strip _) eqn:Es; [| reflexivity].
    apply strip_nil_iff in Es. congruence.
Qed.

(** * More on the delivery *)

Lemma chunks_by_shape {A : Type} (n : nat) (text : list A) :
  0 < n ->
  Forall (fun c => 1 <= length c <= n) (chunks_by n text)
  /\ Forall (fun c => length c = n) (removelast (chunks_by n text)).
Proof.
  intro Hn.
  assert (H : forall k (x : list A), length x <= k ->
              Forall (fun c => 1 <= length c <= n) (chunks_by n x)
              /\ Forall (fun c => length c = n) (removelast (chunks_by n x))).
  { induction k as [| k IH]; intros x Hk.
    - destruct x; [| cbn in Hk; lia]. rewrite chunks_by_nil. split; constructor.
    - destruct x as [| a x']; [rewrite chunks_by_nil; split; constructor |].
      rewrite chunks_by_cons by (auto; discriminate).
      destruct (IH (skipn n (a :: x'))) as [H1 H2].
      { rewrite length_skipn. cbn [length] in *. lia. }
      split.
      + constructor; [| exact H1]. rewrite length_firstn. cbn [length]. lia.
      + cbn [removelast].
        destruct (chunks_by n (skipn n (a :: x'))) as [| c rest] eqn:E;
          [constructor |].
        constructor; [| exact H2].
        rewrite length_firstn.
        destruct (Nat.le_gt_cases (length (a :: x')) n) as [Hle | Hgt]; [| lia].
        rewrite skipn_all2, chunks_by_nil in E by exact Hle. discriminate. }
  apply (H (length text)). lia.
Qed.

(** X3.  No chunk of [tg] is empty, none is longer than 4000
    characters, and every chunk but the last has exactly 4000. *)
Theorem chunks_full_but_last (text : str) :
  Forall (fun c => 1 <= length c <= 4000) (chunks text)
  /\ Forall (fun c => length c = 4000) (removelast (chunks text)).
Proof.
  apply (chunks_by_shape chunk_size). unfold chunk_size. lia.
Qed.

(** X4.  [tg] on the empty text makes no request and returns without
    touching anything; on any other text its first request carries the
    first 4000 characters of the text. *)
Theorem tg_requests_iff_text (h : host) (text : str) (t : trace) :
  exists r d,
    tg h text t = (r, t ++ d)
    /\ match text with
       | [] => r = Ok tt /\ d = []
       | _ :: _ => exists more, posts d = firstn 4000 text :: more
       end.
Proof.
  destruct text as [| c text'].
  - exists (Ok tt), []. rewrite app_nil_r. repeat split.
  - destruct (tg_run h (c :: text') t)
      as (r & d & E & ((k & Hk & Hp & _ & Hone) & _) & _).
    exists r, d. split; [exact E |].
    unfold chunks in Hp, Hone.
    rewrite chunks_by_cons in Hp, Hone
      by (try discriminate; unfold chunk_size; lia).
    specialize (Hone ltac:(discriminate)).
    destruct k as [| k']; [lia |]. cbn [firstn] in Hp.
    eexists. exact Hp.
Qed.

(** X5.  A request of [tg] that fails (a timeout, an HTTP error status, a
    reply that is not JSON), whichever chunk it carries, ends [tg] at
    once with that exception: the failed request is the last thing [tg]
    did, so the chunks after it are not posted and nothing is written to
    the log for it. *)
Theorem tg_failed_request_aborts (h : host) (text : str) (t : trace) :
  exists r d,
    tg h text t = (r, t ++ d)
    /\ forall url form timeout msg,
         In (EvTelegram url form timeout (Failed msg)) d ->
         r = Raise (Exception msg)
         /\ exists before,
              d = before ++ [EvTelegram url form timeout (Failed msg)].
Proof.
  destruct (tg_loop_stops h (tg_url h) (chunks text) t) as (r & d & E & H).
  exists r, d. split; [exact E |].
  intros url form timeout msg Hin.
  exact (H url form timeout (Failed msg) msg Hin eq_refl).
Qed.

(** A text of three chunks on a channel whose second request times
    out. *)
Lemma tg_failed_request_aborts_witness :
  fst (tg Fixture.second_post_fails Fixture.text_8500 [])
  = Raise (Exception (u "The read operation timed out"))
  /\ posts (snd (tg Fixture.second_post_fails Fixture.text_8500 []))
     = firstn 2 (chunks Fixture.text_8500).
Proof.
  destruct (tg_failed_request_aborts Fixture.second_post_fails
              Fixture.text_8500 []) as (r & d & E & H).
  assert (Hd : d = snd (tg Fixture.second_post_fails Fixture.text_8500 []))
    by (now rewrite E).
  rewrite E. cbn [fst snd app]. split.
  - refine (proj1 (H (tg_url Fixture.second_post_fails)
                     (tg_form Fixture.second_post_fails
                        (firstn 4000 (skipn 4000 Fixture.text_8500)))
                     15 (u "The read operation timed out") _)).
    rewrite Hd. vm_compute. right. left. reflexivity.
  - rewrite Hd. vm_compute. reflexivity.
Defined.

Lemma tg_raises_not_a_dict (v : json) :
  (forall m, v <> JObj m) ->
  tg_raises (Got v)
  = Some (u "'" ++ type_name v ++ u "' object has no attribute 'get'").
Proof.
  intro Hv. destruct v as [| b | z | f | x | l | m]; try reflexivity.
  now destruct (Hv m).
Qed.

(** X6.  A reply of the delivery channel that decodes to something else
    than a dict, to whichever request, ends [tg] at once as well, with
    the [AttributeError] of [r.get]: that request is the last thing [tg]
    did, the chunks after it are not posted and nothing is logged. *)
Theorem tg_reply_not_a_dict_aborts (h : host) (text : str) (t : trace) :
  exists r d,
    tg h text t = (r, t ++ d)
    /\ forall url form timeout v,
         In (EvTelegram url form timeout (Got v)) d ->
         (forall m, v <> JObj m) ->
         r = Raise (Exception (u "'" ++ type_name v
                               ++ u "' object has no attribute 'get'"))
         /\ exists before,
              d = before ++ [EvTelegram url form timeout (Got v)].
Proof.
  destruct (tg_loop_stops h (tg_url h) (chunks text) t) as (r & d & E & H).
  exists r, d. split; [exact E |].
  intros url form timeout v Hin Hv.
  exact (H url form timeout (Got v) _ Hin (tg_raises_not_a_dict v Hv)).
Qed.

(** A text of three chunks on a channel that answers [[]] to the second
    request. *)
Lemma tg_reply_not_a_dict_aborts_witness :
  fst (tg Fixture.second_reply_garbled Fixture.text_8500 [])
  = Raise (Exception (u "'" ++ type_name (JArr [])
                      ++ u "' object has no attribute 'get'"))
  /\ posts (snd (tg Fixture.second_reply_garbled Fixture.text_8500 []))
     = firstn 2 (chunks Fixture.text_8500).
Proof.
  destruct (tg_reply_not_a_dict_aborts Fixture.second_reply_garbled
              Fixture.text_8500 []) as (r & d & E & H).
  assert (Hd : d = snd (tg Fixture.second_reply_garbled Fixture.text_8500 []))
    by (now rewrite E).
  rewrite E. cbn [fst snd app]. split.
  - refine (proj1 (H (tg_url Fixture.second_reply_garbled)
                     (tg_form Fixture.second_reply_garbled
                        (firstn 4000 (skipn 4000 Fixture.text_8500)))
                     15 (JArr []) _ _)).
    + rewrite Hd. vm_compute. right. left. reflexivity.
    + discriminate.
  - rewrite Hd. vm_compute. reflexivity.
Defined.

Example channel_down_run :
  tg Fixture.channel_down Fixture.text_8500 []
  = (Raise (Exception (u "HTTP Error 404: Not Found")),
     [EvTelegram (tg_url Fixture.channel_down)
        (tg_form Fixture.channel_down (firstn 4000 Fixture.text_8500)) 15
        (Failed (u "HTTP Error 404: Not Found"))]).
Proof. vm_compute. reflexivity. Qed.

(** * More on the credentials, the snapshot and the prompt *)

Lemma key_loads_fun (rl : reply json) (k k' : json) :
  key_loads rl k -> key_loads rl k' -> k = k'.
Proof.
  intros (m & -> & Hk & _) (m' & E & Hk' & _).
  injection E as <-. rewrite Hk in Hk'. now injection Hk'.
Qed.

Lemma key_loads_not_fails (rl : reply json) (k : json) (msg : str) :
  key_loads rl k -> key_load_fails rl msg -> False.
Proof.
  intros H1 H2. apply key_loads_ok in H1. apply key_load_fails_not_ok in H2.
  congruence.
Qed.

(** X7.  The first [try] of [main] reads the credentials file once.  It
    yields a key exactly when the file decodes to a dict whose
    primaryApiKey is truthy, and that key is the value stored there; in
    every other case (unreadable file, invalid JSON, no dict, key
    missing, or a falsy key such as the empty text, 0, false or null) it
    raises an [Exception], never anything else. *)
Theorem load_api_key_iff (h : host) (t : trace) :
  let rl := load_json h t CLAUDE_CONFIG in
  snd (load_api_key h t) = t ++ [EvLoad CLAUDE_CONFIG rl]
  /\ (forall k, fst (load_api_key h t) = Ok k <-> key_loads rl k)
  /\ (forall e, fst (load_api_key h t) = Raise e
                <-> exists msg, e = Exception msg /\ key_load_fails rl msg).
Proof.
  cbv zeta.
  destruct (load_api_key_cases h t) as [(k & Hk & E) | (msg & Hf & E)];
    cbv zeta in E; rewrite E; cbn [fst snd].
  - split; [reflexivity |]. split.
    + intro k'. split.
      * now intros [= <-].
      * intro Hk'. now rewrite (key_loads_fun _ _ _ Hk Hk').
    + intro e. split; [discriminate |].
      intros (msg & _ & Hf). destruct (key_loads_not_fails _ _ _ Hk Hf).
  - split; [reflexivity |]. split.
    + intro k. split; [discriminate |].
      intro Hk. destruct (key_loads_not_fails _ _ _ Hk Hf).
    + intro e. split.
      * intros [= <-]. now exists msg.
      * intros (msg' & -> & Hf').
        now rewrite (key_load_fails_fun _ _ _ Hf Hf').
Qed.

Example falsy_keys_count_as_missing :
  map (fun v => fst (load_api_key
                       (Fixture.scripted (fun _ => Fixture.silent)
                          (Got (JObj [(u "primaryApiKey", v)]))
                          (Got []) (fun _ => Got Fixture.accepted)) []))
    [JStr []; JNum 0; JBool false; JNull; JArr []; JNum 7]
  = [Raise (Exception (u "primaryApiKey not found in ~/.claude.json"));
     Raise (Exception (u "primaryApiKey not found in ~/.claude.json"));
     Raise (Exception (u "primaryApiKey not found in ~/.claude.json"));
     Raise (Exception (u "primaryApiKey not found in ~/.claude.json"));
     Raise (Exception (u "primaryApiKey not found in ~/.claude.json"));
     Ok (JNum 7)].
Proof. vm_compute. reflexivity. Qed.

Lemma only_shells_printed (d : trace) :
  forallb is_shell d = true -> printed d = [].
Proof.
  induction d as [| e d IH]; [reflexivity |]. cbn [forallb].
  intros [He Hd]%andb_prop. destruct e; try discriminate.
  cbn [printed flat_map print_of app]. now apply IH.
Qed.

(** X8.  [collect] runs its commands one after the other in the order of
    the source and does nothing else: no request, no file read or
    written, nothing printed.  When it returns it has run all twenty,
    each once, and each has completed; when it raises, the last command
    it ran is the one that could not complete, the ones before it have,
    and the exception is the one of that command. *)
Theorem collect_runs_the_commands (h : host) (t : trace) :
  exists r d,
    collect h t = (r, t ++ d)
    /\ length d = length (shells d)
    /\ posts d = [] /\ claude_calls d = [] /\ loads d = []
    /\ tried d = [] /\ printed d = []
    /\ match r with
       | Ok _ =>
           shells d = commands /\ length d = 20 /\ shell_failures d = []
       | Raise e =>
           exists n msg before cmd,
             n < 20 /\ shells d = firstn (S n) commands
             /\ e = Exception msg
             /\ d = before ++ [EvShell cmd (Failed msg)]
             /\ forallb event_ok before = true
       end.
Proof.
  destruct (collect_run h t) as [[p E] | (msg & d & E & Hd)].
  - exists (Ok (snapshot p)), (probe_events p). split; [exact E |].
    repeat split.
  - exists (Raise (Exception msg)), d. split; [exact E |].
    destruct (collect_failed_shows _ _ Hd)
      as (D1 & D2 & D3 & D4 & D5 & _ & _ & _ & D9 & _).
    destruct Hd as (pre & cmd & n & Ed & Hpre & Hsh & Hn & Hs).
    split; [exact D9 |]. split; [exact D1 |]. split; [exact D2 |].
    split; [exact D3 |]. split; [exact D5 |].
    split; [apply only_shells_printed, Hsh |].
    exists n, msg, pre, cmd. repeat split; assumption.
Qed.

Example collect_stops_at_the_garbled_logs :
  collect Fixture.garbled_logs []
  = (Raise (Exception Fixture.undecodable),
     [EvShell cmd_docker_containers (Got (Fixture.says (u "ok")));
      EvShell cmd_docker_stats (Got (Fixture.says (u "ok")));
      EvShell cmd_openclaw_logs (Failed Fixture.undecodable)]).
Proof. vm_compute. reflexivity. Qed.

Lemma py_or_nonempty (v fb : str) : 1 <= length fb -> 1 <= length (py_or v fb).
Proof. destruct v; cbn [py_or length]; [auto | lia]. Qed.

Lemma system_resources_text_nonempty (a b c d e : str) :
  1 <= length (system_resources_text a b c d e).
Proof.
  unfold system_resources_text. cbn [join]. rewrite !length_app.
  change (length (u "Memory: ")) with 8. lia.
Qed.

Lemma network_security_text_nonempty (a b c d e f g i : str) :
  1 <= length (network_security_text a b c d e f g i).
Proof.
  unfold network_security_text. cbn [join]. rewrite !length_app.
  change (length (u "TCP stats:      ")) with 16. lia.
Qed.

(** X9.  In a snapshot that [collect] returns only docker_containers,
    the first section, can be empty: each of the other eight holds at
    least one character, whatever the commands print. *)
Theorem collect_sections_nonempty (h : host) (t : trace) :
  match fst (collect h t) with
  | Ok d =>
      exists first rest,
        d = (u "docker_containers", first) :: rest
        /\ length rest = 8
        /\ Forall (fun item => 1 <= length (snd item)) rest
  | Raise e => exists msg, e = Exception msg
  end.
Proof.
  destruct (collect_run h t) as [[p E] | (msg & d & E & _)]; rewrite E;
    cbn [fst]; [| now exists msg].
  unfold snapshot. eexists. eexists. split; [reflexivity |].
  split; [reflexivity |].
  repeat (apply Forall_cons;
          [cbn [snd];
           lazymatch goal with
           | |- 1 <= length (py_or _ _) =>
               apply py_or_nonempty; vm_compute; lia
           | |- 1 <= length (system_resources_text _ _ _ _ _) =>
               apply system_resources_text_nonempty
           | |- 1 <= length (network_security_text _ _ _ _ _ _ _ _) =>
               apply network_security_text_nonempty
           end |]).
  apply Forall_nil.
Qed.

Lemma length_section_block (item : str * str) :
  length (section_block item) = length (fst item) + length (snd item) + 11.
Proof.
  unfold section_block. rewrite !length_app.
  change (length nl) with 1. change (length (u "=== ")) with 4.
  change (length (u " ===")) with 4. lia.
Qed.

Lemma length_concat_blocks (sections : dict) :
  length (concat (map section_block sections))
  = list_sum (map (fun item => length (fst item) + length (snd item) + 11)
                sections).
Proof.
  induction sections as [| item rest IH]; [reflexivity |].
  cbn [map concat list_sum].
  now rewrite length_app, length_section_block, IH.
Qed.

Lemma length_instructions (now : str) :
  length (build_prompt [] now) = 1594 + length now.
Proof.
  unfold build_prompt. cbn [add_sections]. unfold preamble. cbn [join].
  rewrite !length_app.
  repeat match goal with
         | |- context [length (u ?x)] =>
             let n := eval vm_compute in (length (u x)) in
             change (length (u x)) with n
         end.
  change (length nl) with 1. change (@length char []) with 0. lia.
Qed.

(** X10.  [build_prompt] cuts nothing: its output has the 1594
    characters of the fixed instructions, the length of the timestamp
    and, for each section, the length of its title, the length of its
    content and the 11 characters of the delimiter and the three
    newlines. *)
Theorem build_prompt_length (sections : dict) (now : str) :
  length (build_prompt sections now)
  = 1594 + length now
    + list_sum (map (fun item => length (fst item) + length (snd item) + 11)
                  sections).
Proof.
  rewrite <- length_instructions.
  rewrite (build_prompt_eq sections), (build_prompt_eq []).
  cbn [map concat]. rewrite app_nil_r, length_app.
  now rewrite length_concat_blocks.
Qed.

(** * Invariants of a whole run *)

(** Any property of added events that holds of no events and of two
    runs of events put together, and that each step of the script keeps,
    holds of what [main] adds. *)
Section Adds.

Variable h : host.
Variable Q : trace -> Prop.
Hypothesis Q_nil : Q [].
Hypothesis Q_app : forall a b, Q a -> Q b -> Q (a ++ b).

Lemma adds_ret {A : Type} (a : A) : adds Q (ret a).
Proof. intro t. exists []. cbn. now rewrite app_nil_r. Qed.

Lemma adds_raise {A : Type} (e : exn) : adds Q (@raise A e).
Proof. intro t. exists []. cbn. now rewrite app_nil_r. Qed.

Lemma adds_bind {A B : Type} (m : M A) (f : A -> M B) :
  adds Q m -> (forall a, adds Q (f a)) -> adds Q (bind m f).
Proof.
  intros Hm Hf t. destruct (Hm t) as (d1 & E1 & Q1). unfold bind.
  destruct (m t) as [[a | e] t1]; cbn [snd] in E1; subst t1.
  - destruct (Hf a (t ++ d1)) as (d2 & E2 & Q2).
    exists (d1 ++ d2). rewrite E2, app_assoc. auto.
  - exists d1. auto.
Qed.

Lemma adds_try_except {A : Type} (m : M A) (handler : str -> M A) :
  adds Q m -> (forall e, adds Q (handler e)) -> adds Q (try_except m handler).
Proof.
  intros Hm Hh t. destruct (Hm t) as (d1 & E1 & Q1). unfold try_except.
  destruct (m t) as [[a | [msg | c]] t1]; cbn [snd] in E1; subst t1.
  - exists d1. auto.
  - destruct (Hh msg (t ++ d1)) as (d2 & E2 & Q2).
    exists (d1 ++ d2). rewrite E2, app_assoc. auto.
  - exists d1. auto.
Qed.

Lemma adds_for_each {X : Type} (P : X -> Prop) (l : list X)
    (body : X -> M unit) :
  Forall P l -> (forall x, P x -> adds Q (body x)) ->
  adds Q (for_each l body).
Proof.
  intros Hl Hb. induction Hl as [| x l Hx Hl IH]; cbn [for_each].
  - apply adds_ret.
  - apply adds_bind; [now apply Hb | intros _; exact IH].
Qed.

Lemma adds_json_get (v : json) (key : str) (default : json) :
  adds Q (json_get v key default).
Proof. destruct v; first [apply adds_ret | apply adds_raise]. Qed.

(** The steps of the script. *)
Hypothesis Q_log : forall msg, adds Q (log h msg).
Hypothesis Q_now : forall v, Q [EvClock (u "%Y-%m-%d %H:%M") v].
Hypothesis Q_shell : forall cmd r, In cmd commands -> Q [EvShell cmd r].
Hypothesis Q_load : forall r, Q [EvLoad CLAUDE_CONFIG r].
Hypothesis Q_post :
  forall chunk r,
    1 <= length chunk <= 4000 ->
    Q [EvTelegram (tg_url h) (tg_form h chunk) 15 r].
Hypothesis Q_ask :
  forall key prompt r,
    Q [EvClaude claude_url (claude_headers key) (claude_payload prompt) 60 r].

Lemma adds_run (cmd : str) : In cmd commands -> adds Q (run h cmd).
Proof.
  intros Hin t. exists [EvShell cmd (shell h t cmd)].
  split; [now rewrite run_run |]. now apply Q_shell.
Qed.

Ltac in_commands :=
  unfold commands;
  repeat lazymatch goal with
         | |- In ?a (?b :: _) =>
             first [constr_eq a b; apply in_eq | apply in_cons]
         end.

Lemma adds_collect : adds Q (collect h).
Proof.
  unfold collect. cbv zeta.
  repeat (apply adds_bind; [apply adds_run; in_commands | intro]).
  apply adds_ret.
Qed.

Lemma adds_tg (text : str) : adds Q (tg h text).
Proof.
  unfold tg. cbv zeta.
  apply (adds_for_each (fun c => 1 <= length c <= 4000)).
  - apply (chunks_by_shape chunk_size). unfold chunk_size. lia.
  - intros c Hc. unfold tg_chunk. cbv zeta.
    apply adds_bind.
    + intro t. eexists. split; [reflexivity |]. now apply Q_post.
    + intro r. apply adds_bind; [apply adds_json_get |].
      intro ok. destruct (negb (truthy ok)); [apply Q_log | apply adds_ret].
Qed.

Lemma adds_call_claude (key : json) (prompt : str) :
  adds Q (call_claude h key prompt).
Proof.
  intro t. eexists. split; [reflexivity |]. apply Q_ask.
Qed.

Lemma adds_load_api_key : adds Q (load_api_key h).
Proof.
  unfold load_api_key. apply adds_bind.
  - intro t. eexists. split; [reflexivity |]. apply Q_load.
  - intro config. apply adds_bind; [apply adds_json_get |].
    intro k. destruct (negb (truthy k)); [apply adds_raise | apply adds_ret].
Qed.

Lemma adds_main : adds Q (main h).
Proof.
  unfold main. apply adds_bind; [apply Q_log | intros _].
  apply adds_bind.
  - apply adds_try_except; [apply adds_load_api_key |].
    intro e. apply adds_bind; [apply Q_log | intros _].
    apply adds_bind; [apply adds_tg | intros _]. apply adds_raise.
  - intro key. apply adds_bind.
    + intro t. eexists. split; [reflexivity |]. apply Q_now.
    + intro now. apply adds_try_except.
      * unfold deliver_digest.
        apply adds_bind; [apply adds_collect | intro sections]. cbv zeta.
        apply adds_bind; [apply Q_log | intros _].
        apply adds_bind; [apply adds_call_claude | intro report].
        apply adds_bind; [apply Q_log | intros _].
        apply adds_bind; [apply adds_tg | intros _]. apply Q_log.
      * intro e. apply adds_bind; [apply Q_log | intros _].
        apply adds_bind; [apply adds_tg | intros _]. apply adds_raise.
Qed.

End Adds.

Lemma printed_app (a b : trace) : printed (a ++ b) = printed a ++ printed b.
Proof. apply flat_map_app. Qed.

(** Every event of a run is one the script is written to cause. *)
Lemma main_expected (h : host) : Forall (expected_event h) (snd (main h [])).
Proof.
  destruct (adds_main h (Forall (expected_event h))) with (t := @nil event)
    as (d & E & Hd).
  - constructor.
  - intros a b Ha Hb. apply Forall_app. now split.
  - intros msg t. exists (log_events h t msg). rewrite log_run.
    split; [reflexivity |].
    unfold log_events. cbv zeta.
    constructor; [left; reflexivity |].
    constructor; [exact I |].
    constructor; [| constructor].
    split; [reflexivity |]. eexists. reflexivity.
  - intro v. constructor; [| constructor]. right. reflexivity.
  - intros cmd r Hin. constructor; [exact Hin | constructor].
  - intro r. constructor; [reflexivity | constructor].
  - intros chunk r Hc. constructor; [| constructor].
    split; [reflexivity |]. split; [reflexivity |]. now exists chunk.
  - intros key prompt r. constructor; [| constructor].
    split; [reflexivity |]. split; [reflexivity |]. now exists key, prompt.
  - rewrite E. exact Hd.
Qed.

(** X11.  Every request a run makes to the delivery channel, the digest
    and the error notices alike, goes to the [sendMessage] address of
    the bot, within 15 seconds, with the chat id of the environment, the
    HTML parse mode and a text of 1 to 4000 characters: never an empty
    message, never one over the limit. *)
Theorem main_telegram_requests (h : host) :
  Forall (fun e =>
            match e with
            | EvTelegram url form timeout _ =>
                url = u "https://api.telegram.org/bot" ++ BOT_TOKEN h
                      ++ u "/sendMessage"
                /\ timeout = 15
                /\ exists chunk,
                     form = [(u "chat_id", CHAT_ID h); (u "text", chunk);
                             (u "parse_mode", u "HTML")]
                     /\ 1 <= length chunk <= 4000
            | _ => True
            end) (snd (main h [])).
Proof.
  eapply Forall_impl; [| apply main_expected].
  intros [] He; try exact I. exact He.
Qed.

(** X12.  The only file a run writes is the log file, to which it
    appends whole lines, each ended by a newline; the only file it reads
    is the credentials file. *)
Theorem main_files (h : host) :
  Forall (fun e =>
            match e with
            | EvAppend path data _ =>
                path = u "/root/.openclaw/logs/digest.log"
                /\ exists line, data = line ++ nl
            | EvLoad path _ => path = u "/root/.claude.json"
            | _ => True
            end) (snd (main h [])).
Proof.
  eapply Forall_impl; [| apply main_expected].
  intros [] He; try exact I; exact He.
Qed.

Lemma mirrored_main (h : host) : mirrored (snd (main h [])).
Proof.
  destruct (adds_main h mirrored) with (t := @nil event) as (d & E & Hd);
    try (intros; reflexivity).
  - intros a b Ha Hb. unfold mirrored in *.
    now rewrite tried_app, printed_app, map_app, Ha, Hb.
  - intros msg t. exists (log_events h t msg). rewrite log_run.
    split; reflexivity.
  - rewrite E. exact Hd.
Qed.

Lemma appended_sublist (d : trace) :
  exists keep : list bool,
    length keep = length (tried d)
    /\ appended d
       = map snd (filter fst (combine keep (tried d))).
Proof.
  induction d as [| e d (keep & Hlen & IH)].
  - now exists [].
  - destruct e as [| | path data [w | msg] | | | |];
      try (exists keep; split; [exact Hlen | exact IH]).
    + exists (true :: keep). cbn [tried flat_map tried_of app length combine
                                filter fst map snd appended appended_of].
      split; [f_equal; exact Hlen |]. f_equal. exact IH.
    + exists (false :: keep). cbn [tried flat_map tried_of app length combine
                                 filter fst map snd appended appended_of].
      split; [f_equal; exact Hlen | exact IH].
Qed.

(** X13.  Whatever happens in a run, every line it prints it then sets
    out to append to the log file, in the same order and followed by a
    newline, and it prints nothing else.  The lines that reach the file
    are those whose write did not fail; when no write fails, the file
    gets exactly the printed lines. *)
Theorem main_stdout_mirrors_log (h : host) :
  let t := snd (main h []) in
  tried t = map (fun line => line ++ nl) (printed t)
  /\ (exists keep : list bool,
         length keep = length (printed t)
         /\ appended t
            = map (fun line => line ++ nl)
                (map snd (filter fst (combine keep (printed t)))))
  /\ (forallb append_ok t = true ->
      appended t = map (fun line => line ++ nl) (printed t)).
Proof.
  cbv zeta. pose proof (mirrored_main h) as Hm. unfold mirrored in Hm.
  split; [exact Hm |]. split.
  - destruct (appended_sublist (snd (main h []))) as (keep & Hlen & Hk).
    exists keep. rewrite Hm, length_map in Hlen. split; [exact Hlen |].
    rewrite Hk, Hm. clear.
    generalize (printed (snd (main h []))) as l. revert keep.
    induction keep as [| b keep IH]; intros [| x l]; try reflexivity.
    cbn [map combine filter fst]. destruct b; cbn [map snd].
    + f_equal. apply IH.
    + apply IH.
  - intro Happ. now rewrite (appended_tried _ Happ).
Qed.

(** The run where everything answers. *)
Lemma main_stdout_mirrors_log_witness :
  let t := snd (main (Fixture.all_well (u "<b>STATUS</b>  OK")) []) in
  appended t = map (fun line => line ++ nl) (printed t).
Proof.
  apply (proj2 (proj2 (main_stdout_mirrors_log
                         (Fixture.all_well (u "<b>STATUS</b>  OK"))))).
  vm_compute. reflexivity.
Defined.

(** * The exit status *)

Section Clean.

Variable h : host.


Lemma clean_raise {A : Type} (e : exn) : clean (@raise A e).
Proof. intros t a t' [=]. Qed.









Lemma handler_never_returns {A : Type} (logmsg notice : str) :
  never_returns (log h logmsg ;; tg h notice ;; @sys_exit A 1).
Proof.
  intros t a. destruct (@handler_run h A logmsg notice t) as (out & e & _ & _ & E).
  rewrite E. discriminate.
Qed.


End Clean.



(** * The course of a run *)

Lemma claude_requests_app (a b : trace) :
  claude_requests (a ++ b) = claude_requests a ++ claude_requests b.
Proof. apply flat_map_app. Qed.

Lemma claude_requests_quiet (d : trace) : quiet d -> claude_requests d = [].
Proof.
  intros (_ & Hc & _). induction d as [| e d IH]; [reflexivity |].
  destruct e; cbn in Hc |- *; try (apply IH; exact Hc). discriminate.
Qed.

Lemma shell_failures_quiet (d : trace) : quiet d -> shell_failures d = [].
Proof.
  intros (Hs & _). induction d as [| e d IH]; [reflexivity |].
  destruct e as [| | | c [r | m] | | |]; cbn in Hs |- *;
    try (apply IH; exact Hs); discriminate.
Qed.

(** The two phases of a run, step by step. *)
Section Phases.

Variable h : host.

Lemma early_phased {A : Type} (m : M A) : adds early m -> phased m.
Proof.
  intros Hm t. destruct (Hm t) as (d & E & Hd). exists d.
  split; [exact E |]. split; [| intros; exact Hd].
  exists d, []. rewrite app_nil_r. split; [reflexivity |].
  split; [exact Hd | apply quiet_nil].
Qed.

Lemma two_phases_after (d1 d2 : trace) :
  early d1 -> two_phases d2 -> two_phases (d1 ++ d2).
Proof.
  intros H1 (a & b & -> & Ha & Hb). exists (d1 ++ a), b.
  rewrite app_assoc. split; [reflexivity |]. split; [| exact Hb].
  unfold early in H1. now rewrite posts_app, H1, Ha.
Qed.

Lemma two_phases_before (d1 d2 : trace) :
  two_phases d1 -> quiet d2 -> two_phases (d1 ++ d2).
Proof.
  intros (a & b & -> & Ha & Hb) H2. exists a, (b ++ d2).
  rewrite app_assoc. split; [reflexivity |]. split; [exact Ha |].
  now apply quiet_app.
Qed.

Lemma phased_bind {A B : Type} (m : M A) (f : A -> M B) :
  phased m -> (forall a, phased (f a)) -> phased (bind m f).
Proof.
  intros Hm Hf t. destruct (Hm t) as (d1 & E1 & P1 & K1). unfold bind.
  destruct (m t) as [[a | e] t1]; cbn [fst snd] in *; subst t1.
  - destruct (Hf a (t ++ d1)) as (d2 & E2 & P2 & K2).
    exists (d1 ++ d2). rewrite E2, app_assoc. split; [reflexivity |].
    split; [apply two_phases_after; [exact (K1 a eq_refl) | exact P2] |].
    intros b Hb. unfold early in *.
    now rewrite posts_app, (K1 a eq_refl), (K2 b Hb).
  - exists d1. split; [reflexivity |]. split; [exact P1 | discriminate].
Qed.

Lemma phased_try_except {A : Type} (m : M A) (handler : str -> M A) :
  phased m ->
  (forall e, adds quiet (handler e)) ->
  (forall e, never_returns (handler e)) ->
  phased (try_except m handler).
Proof.
  intros Hm Hq Hn t. destruct (Hm t) as (d1 & E1 & P1 & K1).
  unfold try_except. specialize (Hn).
  destruct (m t) as [[a | [msg | c]] t1] eqn:Em; cbn [fst snd] in *; subst t1.
  - exists d1. split; [reflexivity |]. split; [exact P1 | exact K1].
  - destruct (Hq msg (t ++ d1)) as (d2 & E2 & Q2).
    exists (d1 ++ d2). rewrite E2, app_assoc. split; [reflexivity |].
    split; [now apply two_phases_before |].
    intros a Ha. destruct (Hn msg (t ++ d1) a Ha).
  - exists d1. split; [reflexivity |]. split; [exact P1 | discriminate].
Qed.

Lemma phased_then {A B : Type} (m : M A) (f : A -> M B) :
  phased m -> (forall a, adds two_phases (f a)) -> adds two_phases (bind m f).
Proof.
  intros Hm Hf t. destruct (Hm t) as (d1 & E1 & P1 & K1). unfold bind.
  destruct (m t) as [[a | e] t1]; cbn [fst snd] in *; subst t1.
  - destruct (Hf a (t ++ d1)) as (d2 & E2 & P2).
    exists (d1 ++ d2). rewrite E2, app_assoc. split; [reflexivity |].
    apply two_phases_after; [exact (K1 a eq_refl) | exact P2].
  - exists d1. split; [reflexivity | exact P1].
Qed.

Lemma two_phases_try_except {A : Type} (m : M A) (handler : str -> M A) :
  adds two_phases m ->
  (forall e, adds quiet (handler e)) ->
  adds two_phases (try_except m handler).
Proof.
  intros Hm Hq t. destruct (Hm t) as (d1 & E1 & P1). unfold try_except.
  destruct (m t) as [[a | [msg | c]] t1]; cbn [snd] in *; subst t1.
  - exists d1. split; [reflexivity | exact P1].
  - destruct (Hq msg (t ++ d1)) as (d2 & E2 & Q2).
    exists (d1 ++ d2). rewrite E2, app_assoc. split; [reflexivity |].
    now apply two_phases_before.
  - exists d1. split; [reflexivity | exact P1].
Qed.

Lemma quiet_two_phases {A : Type} (m : M A) :
  adds quiet m -> adds two_phases m.
Proof.
  intros Hm t. destruct (Hm t) as (d & E & Q). exists d.
  split; [exact E |]. exists [], d. repeat split; apply Q.
Qed.

Lemma quiet_log (msg : str) : adds quiet (log h msg).
Proof.
  intro t. exists (log_events h t msg). rewrite log_run.
  split; [reflexivity | apply log_events_quiet].
Qed.

Lemma early_log (msg : str) : adds early (log h msg).
Proof.
  intro t. exists (log_events h t msg). rewrite log_run.
  split; reflexivity.
Qed.

Lemma quiet_tg (text : str) : adds quiet (tg h text).
Proof.
  intro t. destruct (tg_run h text t) as (r & d & E & O & _).
  exists d. rewrite E. split; [reflexivity | apply O].
Qed.

Lemma quiet_handler {A : Type} (logmsg notice : str) :
  adds quiet (log h logmsg ;; tg h notice ;; @sys_exit A 1).
Proof.
  apply (adds_bind quiet quiet_app); [apply quiet_log |].
  intros _.
  apply (adds_bind quiet quiet_app); [apply quiet_tg |].
  intros _. apply (adds_raise quiet quiet_nil).
Qed.

Lemma early_app (a b : trace) : early a -> early b -> early (a ++ b).
Proof. unfold early. intros Ha Hb. now rewrite posts_app, Ha, Hb. Qed.

Lemma two_phases_main : adds two_phases (main h).
Proof.
  unfold main.
  apply phased_then; [apply early_phased, early_log | intros _].
  apply phased_then.
  - apply phased_try_except.
    + apply early_phased, adds_load_api_key;
        [reflexivity | apply early_app | reflexivity].
    + intro e. apply quiet_handler.
    + intro e. apply handler_never_returns.
  - intro key. apply phased_then.
    + apply early_phased. intro t. eexists. split; reflexivity.
    + intro now. apply two_phases_try_except; [| intro e; apply quiet_handler].
      unfold deliver_digest.
      apply phased_then.
      { apply early_phased, adds_collect;
          [reflexivity | apply early_app | reflexivity]. }
      intro sections. cbv zeta.
      apply phased_then; [apply early_phased, early_log | intros _].
      apply phased_then.
      { apply early_phased. intro t. eexists. split; reflexivity. }
      intro report. apply quiet_two_phases.
      apply (adds_bind quiet quiet_app); [apply quiet_log |].
      intros _.
      apply (adds_bind quiet quiet_app); [apply quiet_tg |].
      intros _. apply quiet_log.
Qed.

End Phases.

(** X15.  A run has two phases that never mix, whatever fails: first
    the credentials, the clock, the commands and the summarizer, during
    which nothing is posted to the delivery channel; then logging and
    delivery only, during which no command is run, no summary is asked,
    and neither the credentials nor the run timestamp are read again. *)
Theorem main_phases (h : host) :
  exists t1 t2,
    snd (main h []) = t1 ++ t2
    /\ posts t1 = []
    /\ shells t2 = [] /\ claude_calls t2 = [] /\ loads t2 = [] /\ nows t2 = [].
Proof.
  destruct (two_phases_main h []) as (d & E & (t1 & t2 & -> & H1 & H2)).
  exists t1, t2. split; [exact E |]. split; [exact H1 | exact H2].
Qed.

(** X16.  With the log file writable, a run reads the credentials file
    exactly once.  Then either it runs no command, takes no run
    timestamp and asks for no summary (the key did not load); or it
    takes the timestamp once and runs the commands in their order up to
    one that cannot complete, and asks for no summary; or it takes the
    timestamp once, runs all twenty commands in their order, each
    completing, and calls the summarizer exactly once.  Nothing is
    retried. *)
Theorem main_call_counts (h : host) :
  let t := snd (main h []) in
  forallb append_ok t = true ->
  length (loads t) = 1
  /\ ((shells t = [] /\ nows t = [] /\ claude_calls t = []
       /\ forallb key_ok (loads t) = false)
      \/ (exists n,
             n < 20 /\ shells t = firstn (S n) commands
             /\ length (shell_failures t) = 1
             /\ length (nows t) = 1 /\ claude_calls t = [])
      \/ (shells t = commands /\ shell_failures t = []
          /\ length (nows t) = 1 /\ length (claude_calls t) = 1)).
Proof.
  cbv zeta. intro Happ. run_shows h; [congruence | ..].
  - rewrite Hl, Hn, Hs, Hc. split; [reflexivity |]. left.
    cbn [forallb]. rewrite (key_load_fails_not_ok _ _ Hf0). repeat split.
  - rewrite Hl, Hn, Hs, Hc, Hsf. split; [reflexivity |]. right. left.
    exists n. repeat split. exact Hn20.
  - rewrite Hl, Hn, Hs, Hc, Hsf. split; [reflexivity |]. right. right.
    repeat split.
  - rewrite Hl, Hn, Hs, Hc, Hsf. split; [reflexivity |]. right. right.
    repeat split.
  - rewrite Hl, Hn, Hs, Hc, Hsf. split; [reflexivity |]. right. right.
    repeat split.
Qed.

(** The run where a command prints bytes that do not decode. *)
Lemma main_call_counts_witness :
  let t := snd (main Fixture.garbled_logs []) in
  length (loads t) = 1
  /\ ((shells t = [] /\ nows t = [] /\ claude_calls t = []
       /\ forallb key_ok (loads t) = false)
      \/ (exists n,
             n < 20 /\ shells t = firstn (S n) commands
             /\ length (shell_failures t) = 1
             /\ length (nows t) = 1 /\ claude_calls t = [])
      \/ (shells t = commands /\ shell_failures t = []
          /\ length (nows t) = 1 /\ length (claude_calls t) = 1)).
Proof.
  apply (main_call_counts Fixture.garbled_logs).
  vm_compute. reflexivity.
Defined.


(** X18.  When a run returns, the number of requests it made to the
    delivery channel is the number of 4000-character chunks of the
    header-prefixed report: ceil((31 + len(now) + len(report)) / 4000),
    the header and the text around the timestamp taking 31 characters. *)
Theorem main_request_count (h : host) (body : json) (report : str) :
  let out := main h [] in
  fst out = Ok tt ->
  In (body, Got report) (claude_calls (snd out)) ->
  exists now,
    nows (snd out) = [now]
    /\ length (posts (snd out))
       = ceil_div (31 + length now + length report) 4000.
Proof.
  cbv zeta. intros Hok Hin.
  run_shows h; try contradiction.
  rewrite Hc in Hin. apply In_singleton in Hin. injection Hin as _ <-.
  exists now. split; [exact Hn |].
  assert (Hpos : 0 < chunk_size) by (unfold chunk_size; lia).
  rewrite Hp. unfold chunks.
  transitivity (ceil_div (length (digest_text now report)) chunk_size);
    [apply (chunks_by_length chunk_size Hpos) |].
  unfold digest_text. rewrite !length_app.
  change (length (u "📊 <b>Hourly digest</b> — ")) with 25.
  change (length (u " UTC")) with 4. change (length nl) with 1.
  unfold chunk_size. f_equal. lia.
Qed.

(** The run where everything answers: one request. *)
Lemma main_request_count_witness :
  let out := main (Fixture.all_well (u "<b>STATUS</b>  OK")) [] in
  exists now,
    nows (snd out) = [now]
    /\ length (posts (snd out))
       = ceil_div (31 + length now + length (u "<b>STATUS</b>  OK")) 4000.
Proof.
  eapply (main_request_count (Fixture.all_well (u "<b>STATUS</b>  OK"))).
  - vm_compute. reflexivity.
  - vm_compute. left. reflexivity.
Defined.

(** Where a run stands when delivery and logging are all that is left. *)
Lemma main_asked (h : host) :
  forallb append_ok (snd (main h [])) = false
  \/ (exists rl msg d,
         key_load_fails rl msg
         /\ snd (main h []) = (started h ++ [EvLoad CLAUDE_CONFIG rl]) ++ d
         /\ quiet d)
  \/ (exists rl k now msg d0 d,
         key_loads rl k /\ collect_failed msg d0
         /\ snd (main h []) = (keyed h rl now ++ d0) ++ d
         /\ quiet d)
  \/ (exists rl k now p rc d,
         key_loads rl k
         /\ snd (main h []) = asked h rl k now p rc ++ d
         /\ quiet d).
Proof.
  destruct (main_cases h)
    as [e0 L0
       | rl k now msg d out Hk Hd Hh
       | rl k now msg d out Hk Hd Hh
       | rl msg out Erl Hf Hh
       | rl k now p msg out Hk Hh
       | rl k now p report msg d out Hk t t' Ot Hh
       | rl k now p report d Hk t t' Ot L3].
  - left. apply (log_events_failed _ _ _ _ L0).
  - destruct (handled_quiet _ _ _ _ _ Hh) as (d' & E & Hq).
    right. right. left. now exists rl, k, now, msg, d, d'.
  - destruct (handled_shows h _ _ _ _ (script_error_notice_nonempty msg) Hh)
      as (_ & _ & _ & _ & _ & _ & _ & _ & Hap & _).
    left. apply Hap. rewrite forallb_app, Hd. apply andb_false_r.
  - destruct (handled_quiet _ _ _ _ _ Hh) as (d & E & Hq).
    right. left. now exists rl, msg, d.
  - destruct (handled_quiet _ _ _ _ _ Hh) as (d & E & Hq).
    right. right. right. now exists rl, k, now, p, (Failed msg), d.
  - destruct (handled_quiet _ _ _ _ _ Hh) as (d' & E & Hq).
    destruct Ot as (_ & Hqd & _).
    right. right. right. exists rl, k, now, p, (Got report).
    exists ((log_events h t (u "response received, sending to Telegram")
             ++ d) ++ d').
    split; [exact Hk |]. split.
    + rewrite E. unfold t'. now rewrite <- !app_assoc.
    + apply quiet_app; [| exact Hq].
      apply quiet_app; [apply log_events_quiet | exact Hqd].
  - destruct Ot as (_ & Hqd & _).
    right. right. right. exists rl, k, now, p, (Got report).
    exists ((log_events h t (u "response received, sending to Telegram")
             ++ d) ++ log_events h (t' ++ d) (u "digest sent OK")).
    split; [exact Hk |]. split.
    + cbn [snd]. unfold t'. now rewrite <- !app_assoc.
    + apply quiet_app; [| apply log_events_quiet].
      apply quiet_app; [apply log_events_quiet | exact Hqd].
Qed.

Lemma asked_requests (h : host) (rl : reply json) (k : json) (now : str)
    (p : probes) (rc : reply str) :
  claude_requests (asked h rl k now p rc)
  = [(claude_url, claude_headers k,
      claude_payload (build_prompt (snapshot p) now), 60)].
Proof. reflexivity. Qed.

Lemma claude_requests_none (d : trace) :
  claude_calls d = [] -> claude_requests d = [].
Proof.
  intro Hc. induction d as [| e d IH]; [reflexivity |].
  destruct e; cbn in Hc |- *; try (apply IH; exact Hc). discriminate.
Qed.

(** X19.  With the log file writable, a run makes no request to the
    summarizer when the key did not load (and then it runs no command),
    and none when the key loaded and a command of the collection could
    not complete; otherwise it makes exactly one: to the messages
    address, within 60 seconds, with the loaded key as [x-api-key], the
    model and [max_tokens] 1500, and as its single user message the
    prompt built from the run timestamp and from the snapshot of the
    very commands this run has run. *)
Theorem main_summarizer_request (h : host) :
  let t := snd (main h []) in
  forallb append_ok t = true ->
  (claude_requests t = [] /\ shells t = []
   /\ exists rl, loads t = [rl] /\ key_ok rl = false)
  \/ (claude_requests t = []
      /\ exists rl key msg,
           loads t = [rl] /\ key_loads rl key /\ shell_failures t = [msg])
  \/ exists rl key now p before after,
       t = before ++ probe_events p ++ after
       /\ loads t = [rl] /\ key_loads rl key /\ nows t = [now]
       /\ shell_failures t = []
       /\ claude_requests t
          = [(u "https://api.anthropic.com/v1/messages",
              [(u "x-api-key", key);
               (u "anthropic-version", JStr (u "2023-06-01"));
               (u "content-type", JStr (u "application/json"))],
              JObj [(u "model", JStr (u "claude-sonnet-4-6"));
                    (u "max_tokens", JNum 1500);
                    (u "messages",
                     JArr [JObj [(u "role", JStr (u "user"));
                                 (u "content",
                                  JStr (build_prompt (snapshot p) now))]])],
              60)].
Proof.
  cbv zeta. intro Happ.
  destruct (main_asked h)
    as [Hbad
       | [(rl & msg & d & Hf & E & Hq)
         | [(rl & k & now & msg & d0 & d & Hk & Hd & E & Hq)
           | (rl & k & now & p & rc & d & Hk & E & Hq)]]].
  - congruence.
  - left. rewrite E. pose proof Hq as (Hs & _ & Hld & _).
    rewrite claude_requests_app, shells_app, loads_app, Hs, Hld.
    rewrite (claude_requests_quiet d Hq).
    split; [reflexivity |]. split; [reflexivity |].
    exists rl. split; [reflexivity |]. apply (key_load_fails_not_ok _ _ Hf).
  - right. left. rewrite E. pose proof Hq as (_ & _ & Hld & _).
    destruct (collect_failed_shows _ _ Hd)
      as (_ & D2 & D3 & _ & _ & D6 & _).
    rewrite !claude_requests_app, !loads_app, !shell_failures_app.
    rewrite (claude_requests_quiet d Hq), (claude_requests_none d0 D2),
      (shell_failures_quiet d Hq), D3, D6, Hld.
    split; [reflexivity |]. exists rl, k, msg.
    split; [reflexivity |]. split; [exact Hk | reflexivity].
  - right. right. rewrite E. exists rl, k, now, p.
    destruct (asked_shows h rl k now p rc) as (_ & _ & _ & Hl & Hn & Hsf & _).
    pose proof Hq as (_ & _ & Hld & Hnd).
    exists (keyed h rl now).
    eexists.
    split; [| split; [| split; [exact Hk | split; [| split]]]].
    + unfold asked, collected. cbv zeta. rewrite <- !app_assoc. reflexivity.
    + now rewrite loads_app, Hl, Hld.
    + now rewrite nows_app, Hn, Hnd.
    + now rewrite shell_failures_app, Hsf, (shell_failures_quiet d Hq).
    + rewrite claude_requests_app, asked_requests, (claude_requests_quiet d Hq).
      reflexivity.
Qed.

(** The run where a command prints bytes that do not decode: no request
    to the summarizer. *)
Lemma main_summarizer_request_witness :
  let t := snd (main Fixture.garbled_logs []) in
  (claude_requests t = [] /\ shells t = []
   /\ exists rl, loads t = [rl] /\ key_ok rl = false)
  \/ (claude_requests t = []
      /\ exists rl key msg,
           loads t = [rl] /\ key_loads rl key /\ shell_failures t = [msg])
  \/ exists rl key now p before after,
       t = before ++ probe_events p ++ after
       /\ loads t = [rl] /\ key_loads rl key /\ nows t = [now]
       /\ shell_failures t = []
       /\ claude_requests t
          = [(u "https://api.anthropic.com/v1/messages",
              [(u "x-api-key", key);
               (u "anthropic-version", JStr (u "2023-06-01"));
               (u "content-type", JStr (u "application/json"))],
              JObj [(u "model", JStr (u "claude-sonnet-4-6"));
                    (u "max_tokens", JNum 1500);
                    (u "messages",
                     JArr [JObj [(u "role", JStr (u "user"));
                                 (u "content",
                                  JStr (build_prompt (snapshot p) now))]])],
              60)].
Proof.
  apply (main_summarizer_request Fixture.garbled_logs).
  vm_compute. reflexivity.
Defined.
